(** * Face-recognizer backend: the views of [apps/face_recognition/views.py]

    A shallow embedding of the upload / index / match / cleanup workflow and
    of the archive workflow, with the remote services (S3, Rekognition) kept
    abstract behind an interface, and the properties of the workflows proved
    over every behaviour of those services. *)

From Stdlib Require Import ZArith List Lia Bool.
From Stdlib Require Import Strings.String Strings.Ascii Strings.Byte.
From Stdlib Require Import Floats.SpecFloat.
From stdpp Require Import base option list strings gmap fin_maps.

Import ListNotations.
Local Open Scope string_scope.
Local Open Scope list_scope.

(** ** Bytes *)

Abbreviation bytes := (list byte).

Definition byte_val (b : byte) : Z := Z.of_N (Byte.to_N b).

(** [b"..."] literals of the examples. *)
Definition b_ (s : string) : bytes := list_byte_of_string s.

(** ** hashlib.md5 (RFC 1321), on 32-bit words held in [Z] *)

Module MD5.
Local Open Scope Z_scope.

Definition w32 (x : Z) : Z := x mod 2 ^ 32.

Definition lnot32 (x : Z) : Z := Z.lxor x 0xFFFFFFFF.

Definition rotl32 (x c : Z) : Z :=
  w32 (Z.lor (Z.shiftl x c) (Z.shiftr x (32 - c))).

Definition K : list Z :=
  [ 0xd76aa478; 0xe8c7b756; 0x242070db; 0xc1bdceee;
    0xf57c0faf; 0x4787c62a; 0xa8304613; 0xfd469501;
    0x698098d8; 0x8b44f7af; 0xffff5bb1; 0x895cd7be;
    0x6b901122; 0xfd987193; 0xa679438e; 0x49b40821;
    0xf61e2562; 0xc040b340; 0x265e5a51; 0xe9b6c7aa;
    0xd62f105d; 0x02441453; 0xd8a1e681; 0xe7d3fbc8;
    0x21e1cde6; 0xc33707d6; 0xf4d50d87; 0x455a14ed;
    0xa9e3e905; 0xfcefa3f8; 0x676f02d9; 0x8d2a4c8a;
    0xfffa3942; 0x8771f681; 0x6d9d6122; 0xfde5380c;
    0xa4beea44; 0x4bdecfa9; 0xf6bb4b60; 0xbebfbc70;
    0x289b7ec6; 0xeaa127fa; 0xd4ef3085; 0x04881d05;
    0xd9d4d039; 0xe6db99e5; 0x1fa27cf8; 0xc4ac5665;
    0xf4292244; 0x432aff97; 0xab9423a7; 0xfc93a039;
    0x655b59c3; 0x8f0ccc92; 0xffeff47d; 0x85845dd1;
    0x6fa87e4f; 0xfe2ce6e0; 0xa3014314; 0x4e0811a1;
    0xf7537e82; 0xbd3af235; 0x2ad7d2bb; 0xeb86d391 ].

Definition S : list Z :=
  [ 7; 12; 17; 22; 7; 12; 17; 22; 7; 12; 17; 22; 7; 12; 17; 22;
    5; 9; 14; 20; 5; 9; 14; 20; 5; 9; 14; 20; 5; 9; 14; 20;
    4; 11; 16; 23; 4; 11; 16; 23; 4; 11; 16; 23; 4; 11; 16; 23;
    6; 10; 15; 21; 6; 10; 15; 21; 6; 10; 15; 21; 6; 10; 15; 21 ].

Definition at_ (l : list Z) (i : Z) : Z := nth (Z.to_nat i) l 0.

(** [n] bytes of [x], least significant first. *)
Fixpoint le_bytes (n : nat) (x : Z) : list Z :=
  match n with
  | O => []
  | Datatypes.S n' => (x mod 256) :: le_bytes n' (x / 256)
  end.

Fixpoint le_word (bs : list Z) : Z :=
  match bs with
  | [] => 0
  | b :: r => b + 256 * le_word r
  end.

Definition pad (msg : list Z) : list Z :=
  let len := Z.of_nat (length msg) in
  msg ++ [0x80] ++ repeat 0 (Z.to_nat ((55 - len) mod 64))
      ++ le_bytes 8 ((8 * len) mod 2 ^ 64).

(** The sixteen little-endian words of a 64-byte block. *)
Fixpoint words (n : nat) (block : list Z) : list Z :=
  match n with
  | O => []
  | Datatypes.S n' => le_word (firstn 4 block) :: words n' (skipn 4 block)
  end.

Definition state : Type := Z * Z * Z * Z.

Definition step (M : list Z) (st : state) (i : Z) : state :=
  let '(a, b, c, d) := st in
  let '(f, g) :=
    if i <? 16 then (Z.lor (Z.land b c) (Z.land (lnot32 b) d), i)
    else if i <? 32 then
      (Z.lor (Z.land d b) (Z.land (lnot32 d) c), (5 * i + 1) mod 16)
    else if i <? 48 then (Z.lxor (Z.lxor b c) d, (3 * i + 5) mod 16)
    else (Z.lxor c (Z.lor b (lnot32 d)), (7 * i) mod 16) in
  let f' := w32 (f + a + at_ K i + at_ M g) in
  (d, w32 (b + rotl32 f' (at_ S i)), b, c).

Definition rounds : list Z := map Z.of_nat (seq 0 64).

Definition compress (st : state) (block : list Z) : state :=
  let '(a0, b0, c0, d0) := st in
  let '(a, b, c, d) := fold_left (step (words 16 block)) rounds st in
  (w32 (a0 + a), w32 (b0 + b), w32 (c0 + c), w32 (d0 + d)).

(** The padded message is consumed 64 bytes at a time; [n] counts blocks. *)
Fixpoint blocks (n : nat) (msg : list Z) (st : state) : state :=
  match n with
  | O => st
  | Datatypes.S n' => blocks n' (skipn 64 msg) (compress st (firstn 64 msg))
  end.

Definition init : state := (0x67452301, 0xefcdab89, 0x98badcfe, 0x10325476).

Definition digest (msg : bytes) : list Z :=
  let p := pad (map byte_val msg) in
  let '(a, b, c, d) := blocks (length p / 64) p init in
  le_bytes 4 a ++ le_bytes 4 b ++ le_bytes 4 c ++ le_bytes 4 d.

Definition hex_digit (d : Z) : ascii :=
  ascii_of_nat (Z.to_nat (if d <? 10 then 48 + d else 87 + d)).

Fixpoint hex (bs : list Z) : string :=
  match bs with
  | [] => EmptyString
  | b :: r => String (hex_digit (b / 16)) (String (hex_digit (b mod 16)) (hex r))
  end.

Definition hexdigest (msg : bytes) : string := hex (digest msg).
End MD5.

(** ** posixpath and str methods used by the views *)

Definition sep : ascii := "/"%char.

Fixpoint has_sep (p : string) : bool :=
  match p with
  | EmptyString => false
  | String c r => bool_decide (c = sep) || has_sep r
  end.

(** [p.startswith(q)] and [p.endswith(q)]. *)
Fixpoint startswith (p q : string) : bool :=
  match q, p with
  | EmptyString, _ => true
  | String a q', String b p' => bool_decide (a = b) && startswith p' q'
  | String _ _, EmptyString => false
  end.

Fixpoint endswith (p q : string) : bool :=
  bool_decide (p = q) ||
  match p with
  | EmptyString => false
  | String _ r => endswith r q
  end.

(** [os.path.join(a, b)]. *)
Definition os_path_join (a b : string) : string :=
  if startswith b "/" then b
  else if bool_decide (a = "") || endswith a "/" then a +:+ b
  else a +:+ "/" +:+ b.

(** [os.path.basename(p)]: what follows the last separator. *)
Fixpoint os_path_basename (p : string) : string :=
  match p with
  | EmptyString => EmptyString
  | String c r =>
      if has_sep r then os_path_basename r
      else if bool_decide (c = sep) then r else p
  end.

(** [str.lower()] on the characters a string of this development can hold
    (code points below 256): A-Z and the Latin-1 capitals. *)
Definition lower_char (c : ascii) : ascii :=
  let n := nat_of_ascii c in
  if (65 <=? n)%nat && (n <=? 90)%nat then ascii_of_nat (n + 32)
  else if (192 <=? n)%nat && (n <=? 222)%nat && negb (n =? 215)%nat
       then ascii_of_nat (n + 32)
  else c.

Fixpoint lower (s : string) : string :=
  match s with
  | EmptyString => EmptyString
  | String c r => String (lower_char c) (lower r)
  end.

(** [x in s] for two strings. *)
Fixpoint str_contains (s x : string) : bool :=
  startswith s x ||
  match s with
  | EmptyString => false
  | String _ r => str_contains r x
  end.

(** ** Exceptions and results *)

Inductive exn : Type :=
| ResourceAlreadyExistsException
| ClientError (code : string)
| S3UploadFailedError
| ParamValidationError
| JSONDecodeError
| TypeError
| AttributeError
| KeyError (key : string)
| FileNotFoundError (path : string)
| UnicodeDecodeError
| PermissionError
| IndexError
| struct_error.

Inductive result (A : Type) : Type :=
| Ok (a : A)
| Raise (e : exn).
Arguments Ok {A} a.
Arguments Raise {A} e.

(** ** Values that [json.load] produces, with the operations the views
       apply to them *)

#[warnings="-register-all"] Inductive JSON : Type :=
| JNull
| JBool (b : bool)
| JInt (z : Z)
| JFloat (f : spec_float)
| JStr (s : string)
| JArr (l : list JSON)
| JObj (d : list (string * JSON)).

(** A dict is kept as its items in insertion order. *)
Abbreviation dict := (list (string * JSON)).

Fixpoint dict_get (d : dict) (k : string) : option JSON :=
  match d with
  | [] => None
  | (k', v) :: r => if bool_decide (k' = k) then Some v else dict_get r k
  end.

Definition dict_has (d : dict) (k : string) : bool :=
  match dict_get d k with Some _ => true | None => false end.

(** [d[k] = v]: an existing key keeps its place. *)
Fixpoint dict_set (d : dict) (k : string) (v : JSON) : dict :=
  match d with
  | [] => [(k, v)]
  | (k', v') :: r =>
      if bool_decide (k' = k) then (k, v) :: r else (k', v') :: dict_set r k v
  end.

Definition is_str (x : string) (v : JSON) : bool :=
  match v with JStr s => bool_decide (s = x) | _ => false end.

(** [x in c] for a string [x]. *)
Definition py_contains (x : string) (c : JSON) : result bool :=
  match c with
  | JObj d => Ok (dict_has d x)
  | JArr l => Ok (existsb (is_str x) l)
  | JStr s => Ok (str_contains s x)
  | _ => Raise TypeError
  end.

(** [c[k] = v] for a string [k]. *)
Definition py_setitem (c : JSON) (k : string) (v : JSON) : result JSON :=
  match c with
  | JObj d => Ok (JObj (dict_set d k v))
  | _ => Raise TypeError
  end.

Definition float_is_zero (f : spec_float) : bool :=
  match f with S754_zero _ => true | _ => false end.

(** Truth value of [not v] negated. *)
Definition py_truthy (v : JSON) : bool :=
  match v with
  | JNull => false
  | JBool b => b
  | JInt z => negb (z =? 0)%Z
  | JFloat f => negb (float_is_zero f)
  | JStr s => negb (bool_decide (s = ""))
  | JArr l => match l with [] => false | _ => true end
  | JObj d => match d with [] => false | _ => true end
  end.

Fixpoint chars (s : string) : list JSON :=
  match s with
  | EmptyString => []
  | String c r => JStr (String c EmptyString) :: chars r
  end.

(** The items [for key in v] runs over. *)
Definition py_iter (v : JSON) : result (list JSON) :=
  match v with
  | JArr l => Ok l
  | JStr s => Ok (chars s)
  | JObj d => Ok (map (fun kv => JStr (fst kv)) d)
  | _ => Raise TypeError
  end.

(** A text (the cache file, the body of a request) is kept as what
    [json.load] makes of it: the value of a document; nothing when the text
    is not valid JSON; and the error of the read when there is no text to
    parse - [UnicodeDecodeError] for bytes that are not text in the encoding
    they are read in, [PermissionError] for a file that may not be opened.
    [json.dump] writes the text that loads back as the value it was given. *)
Inductive text : Type :=
| Json_text (v : JSON)
| Not_json
| Unreadable (e : exn).

Definition json_loads (t : text) : result JSON :=
  match t with
  | Json_text v => Ok v
  | Not_json => Raise JSONDecodeError
  | Unreadable e => Raise e
  end.

Definition json_dumps (v : JSON) : text := Json_text v.

(** ** Requests and responses *)

(** An uploaded file: its name (the framework keeps the base name of what
    the client sent) and the chunks [file.chunks()] yields. *)
Record UploadedFile : Type := {
  name : string;
  chunks : list bytes
}.

(** [request.FILES] is a multi-valued dict: the (field, file) pairs in the
    order of the form; [request.body] is what [json.loads] reads. *)
Record HttpRequest : Type := {
  method : string;
  FILES : list (string * UploadedFile);
  body : text
}.

Definition getlist (k : string) (fs : list (string * UploadedFile))
  : list UploadedFile :=
  map snd (filter (fun kv => bool_decide (fst kv = k)) fs).

(** [MultiValueDict.get]: the last value of the key, if any. *)
Definition get (k : string) (fs : list (string * UploadedFile))
  : option UploadedFile :=
  last (getlist k fs).

(** Truth value of a file object: that of its name. *)
Definition file_truthy (f : option UploadedFile) : bool :=
  match f with
  | Some u => negb (bool_decide (name u = ""))
  | None => false
  end.

Inductive HttpResponse : Type :=
| JsonResponse (data : JSON) (status : Z)
| FileResponse (zip : list (string * bytes)) (content_type : string)
               (headers : list (string * string)).

(** ** The remote services *)

Record FaceMatch : Type := {
  Face_ExternalImageId : option string
}.

Record SearchResponse : Type := {
  FaceMatches : option (list FaceMatch)
}.

(** The boto3 clients, for the bucket and the collection of the
    configuration: each call returns or raises, and moves the remote side
    (and the network) to a new state. *)
Class AwsModel : Type := {
  aws : Type;
  create_collection : aws -> result unit * aws;
  upload_file : bytes -> string -> aws -> result unit * aws;
  index_faces : string -> aws -> result unit * aws;
  search_faces_by_image : bytes -> Z -> Z -> aws -> result SearchResponse * aws;
  generate_presigned_url : string -> Z -> aws -> result string * aws;
  get_object : string -> aws -> result bytes * aws
}.

Record Config : Type := {
  AWS_REGION : option string;
  BUCKET_NAME : option string;
  FACE_MATCH_THRESHOLD : Z;
  BASE_DIR : string
}.

(** What the process did that is visible from outside: the calls to the
    services with their outcome, and the lines printed. *)
Inductive Event : Type :=
| E_create_collection (r : result unit)
| E_upload_file (path key : string) (r : result unit)
| E_index_faces (filename : string) (r : result unit)
| E_search_faces_by_image (image : bytes) (r : result SearchResponse)
| E_generate_presigned_url (key : string) (r : result string)
| E_get_object (key : string) (r : result bytes)
| E_print_skipping (filename : string)
| E_print_indexed (filename : string)
| E_print_failed (filename : string) (e : exn).

(** ** Computations

    A computation runs on a state, returns or raises, and leaves a state: the
    effects made before an exception stay. *)

Definition M (W T : Type) : Type := W -> result T * W.

Definition ret {W T} (x : T) : M W T := fun w => (Ok x, w).

Definition raise {W T} (e : exn) : M W T := fun w => (Raise e, w).

Definition bind {W T U} (m : M W T) (k : T -> M W U) : M W U :=
  fun w =>
    match m w with
    | (Ok x, w') => k x w'
    | (Raise e, w') => (Raise e, w')
    end.

(** [try: m  except Exception as e: h e]. *)
Definition try_except {W T} (m : M W T) (h : exn -> M W T) : M W T :=
  fun w =>
    match m w with
    | (Ok x, w') => (Ok x, w')
    | (Raise e, w') => h e w'
    end.

Definition lift {W T} (r : result T) : M W T := fun w => (r, w).

Declare Scope py_scope.
Delimit Scope py_scope with py.
Notation "x <- m ;; k" := (bind m (fun x => k))
  (at level 100, m at next level, right associativity) : py_scope.
Notation "m ;; k" := (bind m (fun _ => k))
  (at level 100, right associativity) : py_scope.
Local Open Scope py_scope.

(** [[f x for x in l]], and a [for] loop that appends [f x] to a list. *)
Fixpoint mapM {W T U} (f : T -> M W U) (l : list T) : M W (list U) :=
  match l with
  | [] => ret []
  | x :: r => y <- f x ;; ys <- mapM f r ;; ret (y :: ys)
  end.

(** A [for] loop that updates a variable [acc]. *)
Fixpoint foldM {W T U} (f : T -> U -> M W U) (l : list T) (acc : U) : M W U :=
  match l with
  | [] => ret acc
  | x :: r => acc' <- f x acc ;; foldM f r acc'
  end.

Definition search_event (ev : Event) : bool :=
  match ev with
  | E_search_faces_by_image _ _ => true
  | _ => false
  end.

(** The key a [get_object] call asked for, and the entry it brought back
    when it returned. *)
Definition requested (ev : Event) : option string :=
  match ev with
  | E_get_object key _ => Some key
  | _ => None
  end.


(** The keys of a request that are strings. *)
Definition str_key (key : JSON) : option string :=
  match key with
  | JStr k => Some k
  | _ => None
  end.

(** The events of the indexing loop. *)
Definition index_event (ev : Event) : bool :=
  match ev with
  | E_index_faces _ _ | E_print_skipping _ | E_print_indexed _
  | E_print_failed _ _ => true
  | _ => false
  end.

Section Views.
Context {A : AwsModel}.
Variable cfg : Config.

(** ** The world a request runs in *)

Record World : Type := {
  files : gmap string bytes;        (* local files, by path *)
  cache_file : option text;         (* CACHE_FILE, when it exists *)
  remote : aws;
  events : list Event
}.

Definition set_files (f : gmap string bytes -> gmap string bytes) (w : World) :=
  {| files := f (files w); cache_file := cache_file w;
     remote := remote w; events := events w |}.

Definition set_cache_file (c : option text) (w : World) :=
  {| files := files w; cache_file := c;
     remote := remote w; events := events w |}.

Definition set_remote (r : aws) (w : World) :=
  {| files := files w; cache_file := cache_file w;
     remote := r; events := events w |}.

Definition emit (e : Event) (w : World) :=
  {| files := files w; cache_file := cache_file w;
     remote := remote w; events := events w ++ [e] |}.

Definition print (e : Event) : M World unit := fun w => (Ok tt, emit e w).

(** A call to a service: the remote side moves, the call is recorded. *)
Definition call {T} (f : aws -> result T * aws) (ev : result T -> Event)
  : M World T :=
  fun w =>
    let '(r, a') := f (remote w) in
    (r, emit (ev r) (set_remote a' w)).

(** ** Local files *)

(** [open(path, "rb").read()]. *)
Definition read_file (path : string) : M World bytes :=
  fun w =>
    match files w !! path with
    | Some b => (Ok b, w)
    | None => (Raise (FileNotFoundError path), w)
    end.

(** [open(path, "wb")] and one [write] per chunk.  The file system is taken
    to accept the write: a run in which [open] raises (a name longer than the
    file system allows, a full disk) ends there with that error and is not
    among the runs of this model. *)
Definition write_file (path : string) (cs : list bytes) : M World unit :=
  fun w => (Ok tt, set_files (insert path (concat cs)) w).

(** The name under which [p] is an entry of directory [d], if it is one. *)
Fixpoint strip_prefix (q p : string) : option string :=
  match q, p with
  | EmptyString, _ => Some p
  | String a q', String b p' =>
      if bool_decide (a = b) then strip_prefix q' p' else None
  | String _ _, EmptyString => None
  end.

Definition entry_name (d p : string) : option string :=
  match strip_prefix (d +:+ "/") p with
  | Some n => if bool_decide (n = "") || has_sep n then None else Some n
  | None => None
  end.

(** [os.listdir(d)], for a directory that holds regular files only: the
    local files are a map from paths to contents, and a sub-directory of [d],
    on which [os.remove] would raise, has no entry here. *)
Definition os_listdir (d : string) : M World (list string) :=
  fun w => (Ok (omap (entry_name d) (map fst (map_to_list (files w)))), w).

Definition os_remove (path : string) : M World unit :=
  fun w =>
    match files w !! path with
    | Some _ => (Ok tt, set_files (delete path) w)
    | None => (Raise (FileNotFoundError path), w)
    end.

(** ** Configuration *)

Definition UPLOAD_FOLDER : string := os_path_join (BASE_DIR cfg) "uploads".

(** An unset variable prints as [None] in an f-string. *)
Definition fmt (o : option string) : string := default "None" o.

(** ** Cache handling *)

Definition load_cache : M World JSON :=
  fun w =>
    match cache_file w with
    | Some t => (json_loads t, w)
    | None => (Ok (JObj []), w)
    end.

Definition save_cache (cache : JSON) : M World unit :=
  fun w => (Ok tt, set_cache_file (Some (json_dumps cache)) w).

Definition ensure_collection_exists : M World unit :=
  try_except
    (call create_collection E_create_collection)
    (fun e =>
       match e with
       | ResourceAlreadyExistsException => ret tt
       | _ => raise e
       end).

Definition file_hash (path : string) : M World string :=
  buf <- read_file path ;;
  ret (MD5.hexdigest buf).

Definition upload_to_s3 (file_path filename : string) : M World unit :=
  content <- read_file file_path ;;
  call (upload_file content filename) (E_upload_file file_path filename).

Definition is_image_name (filename : string) : bool :=
  let l := lower filename in
  endswith l ".jpg" || endswith l ".jpeg" || endswith l ".png".

(** The body of the loop of [index_faces_if_new], on the cache it updates. *)
Definition index_one (path : string) (cache : JSON) : M World JSON :=
  let filename := os_path_basename path in
  if negb (is_image_name filename) then ret cache
  else
    img_hash <- file_hash path ;;
    seen <- lift (py_contains img_hash cache) ;;
    if (seen : bool) then
      print (E_print_skipping filename) ;;
      ret cache
    else
      try_except
        (call (index_faces filename) (E_index_faces filename) ;;
         cache' <- lift (py_setitem cache img_hash (JStr filename)) ;;
         print (E_print_indexed filename) ;;
         ret cache')
        (fun e =>
           print (E_print_failed filename e) ;;
           ret cache).

Definition index_faces_if_new (filepaths : list string) : M World unit :=
  cache <- load_cache ;;
  cache <- foldM index_one filepaths cache ;;
  save_cache cache.

(** ** The upload view *)

Definition error_response (msg : string) : HttpResponse :=
  JsonResponse (JObj [("error", JStr msg)]) 400.

Definition matches_response (image_urls keys : list string) : HttpResponse :=
  JsonResponse
    (JObj [("matches", JArr (map JStr image_urls)); ("keys", JArr (map JStr keys))])
    200.

(** One turn of the loop over the gallery files: the path it appends. *)
Definition save_gallery_file (file : UploadedFile) : M World string :=
  let filename := name file in
  let path := os_path_join UPLOAD_FOLDER filename in
  write_file path (chunks file) ;;
  upload_to_s3 path filename ;;
  ret path.

Definition external_image_id (m : FaceMatch) : M World string :=
  match Face_ExternalImageId m with
  | Some x => ret x
  | None => raise (KeyError "ExternalImageId")
  end.

Definition fallback_url (key : string) : string :=
  "https://" +:+ fmt (BUCKET_NAME cfg) +:+ ".s3." +:+ fmt (AWS_REGION cfg)
  +:+ ".amazonaws.com/" +:+ key.

(** One turn of the loop over the surviving matches: the URL it appends. *)
Definition image_url (key : string) : M World string :=
  try_except
    (call (generate_presigned_url key 3600) (E_generate_presigned_url key))
    (fun _ => ret (fallback_url key)).

(** [for f in os.listdir(UPLOAD_FOLDER): os.remove(...)]. *)
Definition remove_uploads : M World unit :=
  fs <- os_listdir UPLOAD_FOLDER ;;
  foldM (fun f _ => os_remove (os_path_join UPLOAD_FOLDER f)) fs tt.

Definition in_list (x : string) (l : list string) : bool :=
  bool_decide (x ∈ l).

(** The URL appended for [key], given how the presign call ended. *)
Definition url_of (key : string) (r : result string) : string :=
  match r with
  | Ok url => url
  | Raise _ => fallback_url key
  end.

(** The key and the URL of a presign call, for the events that are one. *)
Definition retrieval_url (ev : Event) : option (string * string) :=
  match ev with
  | E_generate_presigned_url key r => Some (key, url_of key r)
  | _ => None
  end.

(** The upload of a gallery file that went through. *)
Definition upload_event (file : UploadedFile) : Event :=
  E_upload_file (os_path_join UPLOAD_FOLDER (name file)) (name file) (Ok tt).

(** The list [current_upload_filenames] of a request. *)
Definition batch_filenames (request : HttpRequest) : list string :=
  map (fun file => os_path_basename (os_path_join UPLOAD_FOLDER (name file)))
      (getlist "gallery_images" (FILES request)).

(** [not gallery_files or not reference_file]. *)
Definition missing_files (gallery_files : list UploadedFile)
    (reference_file : option UploadedFile) : bool :=
  match gallery_files with [] => true | _ :: _ => false end
  || negb (file_truthy reference_file).

Definition upload_images (request : HttpRequest) : M World HttpResponse :=
  if negb (bool_decide (method request = "POST")) then
    ret (error_response "Invalid request")
  else
    ensure_collection_exists ;;
    let gallery_files := getlist "gallery_images" (FILES request) in
    let reference_file := get "reference_image" (FILES request) in
    if missing_files gallery_files reference_file then
      ret (error_response "Missing files")
    else
      match reference_file with
      | None => ret (error_response "Missing files")
      | Some reference =>
          saved_gallery_paths <- mapM save_gallery_file gallery_files ;;
          let ref_name := name reference in
          let ref_path := os_path_join UPLOAD_FOLDER ref_name in
          write_file ref_path (chunks reference) ;;
          index_faces_if_new saved_gallery_paths ;;
          let current_upload_filenames := map os_path_basename saved_gallery_paths in
          ref_img <- read_file ref_path ;;
          response <- call (search_faces_by_image ref_img (FACE_MATCH_THRESHOLD cfg) 1000)
                           (E_search_faces_by_image ref_img) ;;
          all_matches <- mapM external_image_id (default [] (FaceMatches response)) ;;
          let current_batch_matches :=
            filter (fun m => in_list m current_upload_filenames) all_matches in
          image_urls <- mapM image_url current_batch_matches ;;
          remove_uploads ;;
          ret (matches_response image_urls current_batch_matches)
      end.

(** ** The archive view *)

(** [s3.get_object(Bucket=BUCKET_NAME, Key=key)["Body"].read()]: the client
    refuses a key that is not a string before any request is made. *)
Definition fetch (key : JSON) : M World (string * bytes) :=
  match key with
  | JStr k => content <- call (get_object k) (E_get_object k) ;; ret (k, content)
  | _ => raise ParamValidationError
  end.

(** [ZipInfo] ends the name of an entry at its first NUL character. *)
Fixpoint zip_name (s : string) : string :=
  match s with
  | EmptyString => EmptyString
  | String c r => if bool_decide (c = Ascii.zero) then EmptyString
                  else String c (zip_name r)
  end.

(** [zf.writestr(arcname, data)] as [zipfile] of Python 3.11 has it, on the
    archive kept as its entries (name, content) in the order they were
    written.  The name is cut first; [writestr] then looks at its last
    character, which an empty name has not; and the header of an entry holds
    the length of its name in two bytes.  Two entries may bear the same
    name. *)
Definition writestr (arcname : string) (data : bytes) (zf : list (string * bytes))
  : result (list (string * bytes)) :=
  let filename := zip_name arcname in
  if bool_decide (filename = "") then Raise IndexError
  else if (65535 <? Z.of_nat (String.length filename))%Z then Raise struct_error
  else Ok (zf ++ [(filename, data)]).

(** One turn of the loop over the keys. *)
Definition add_entry (key : JSON) (zf : list (string * bytes))
  : M World (list (string * bytes)) :=
  try_except
    (kc <- fetch key ;; lift (writestr (fst kc) (snd kc) zf))
    (fun _ => ret zf).

(** [data.get("keys", [])], for whatever [json.loads] returned. *)
Definition get_keys (data : JSON) : result JSON :=
  match data with
  | JObj d => Ok (default (JArr []) (dict_get d "keys"))
  | _ => Raise AttributeError
  end.

Definition zip_response (zf : list (string * bytes)) : HttpResponse :=
  FileResponse zf "application/zip"
    [("Content-Disposition", "attachment; filename=matches.zip")].

Definition download_zip (request : HttpRequest) : M World HttpResponse :=
  if negb (bool_decide (method request = "POST")) then
    ret (error_response "Invalid request")
  else
    parsed <- try_except
                (data <- lift (json_loads (body request)) ;;
                 keys <- lift (get_keys data) ;;
                 ret (Some keys))
                (fun _ => ret None) ;;
    match parsed with
    | None => ret (error_response "Invalid JSON")
    | Some keys =>
        if negb (py_truthy keys) then ret (error_response "No keys provided")
        else
          items <- lift (py_iter keys) ;;
          zf <- foldM add_entry items [] ;;
          ret (zip_response zf)
    end.
End Views.

Arguments World {A}.
Arguments files {A} w.
Arguments cache_file {A} w.
Arguments remote {A} w.
Arguments events {A} w.

(** ** A simulated AWS, for running the views on concrete requests

    The bucket and the collection are kept as they would be remotely; a call
    listed in [faults] raises.  A face is taken to be the first byte of an
    image. *)

Record Sim : Type := {
  bucket : gmap string bytes;
  collection_exists : bool;
  faces : list (string * option Z);
  faults : list string
}.

Definition face_of (image : bytes) : option Z := byte_val <$> head image.

Definition faulty (op : string) (s : Sim) : bool := bool_decide (op ∈ faults s).

Definition sim_create_collection (s : Sim) : result unit * Sim :=
  if faulty "create_collection" s then (Raise (ClientError "AccessDeniedException"), s)
  else if collection_exists s then (Raise ResourceAlreadyExistsException, s)
  else (Ok tt, {| bucket := bucket s; collection_exists := true;
                  faces := faces s; faults := faults s |}).

Definition sim_upload_file (content : bytes) (key : string) (s : Sim)
  : result unit * Sim :=
  if faulty ("upload_file " +:+ key) s then (Raise S3UploadFailedError, s)
  else (Ok tt, {| bucket := <[key := content]> (bucket s);
                  collection_exists := collection_exists s;
                  faces := faces s; faults := faults s |}).

Definition sim_index_faces (filename : string) (s : Sim) : result unit * Sim :=
  if faulty ("index_faces " +:+ filename) s then
    (Raise (ClientError "ProvisionedThroughputExceededException"), s)
  else
    match bucket s !! filename with
    | None => (Raise (ClientError "InvalidS3ObjectException"), s)
    | Some content =>
        (Ok tt, {| bucket := bucket s; collection_exists := collection_exists s;
                   faces := faces s ++ [(filename, face_of content)];
                   faults := faults s |})
    end.

Definition sim_search_faces_by_image (image : bytes) (threshold max_faces : Z)
    (s : Sim) : result SearchResponse * Sim :=
  if faulty "search_faces_by_image" s then
    (Raise (ClientError "InvalidParameterException"), s)
  else
    (Ok {| FaceMatches :=
             Some (map (fun nf => {| Face_ExternalImageId := Some (fst nf) |})
                       (filter (fun nf => bool_decide (snd nf = face_of image))
                               (faces s))) |}, s).

Definition sim_generate_presigned_url (key : string) (expires : Z) (s : Sim)
  : result string * Sim :=
  if faulty "generate_presigned_url" s then (Raise (ClientError "NoCredentialsError"), s)
  else (Ok ("https://signed.example/" +:+ key), s).

Definition sim_get_object (key : string) (s : Sim) : result bytes * Sim :=
  match bucket s !! key with
  | Some content => (Ok content, s)
  | None => (Raise (ClientError "NoSuchKey"), s)
  end.

Definition SimAws : AwsModel := {|
  aws := Sim;
  create_collection := sim_create_collection;
  upload_file := sim_upload_file;
  index_faces := sim_index_faces;
  search_faces_by_image := sim_search_faces_by_image;
  generate_presigned_url := sim_generate_presigned_url;
  get_object := sim_get_object
|}.

Definition sim_cfg : Config := {|
  AWS_REGION := Some "eu-west-1";
  BUCKET_NAME := Some "faces";
  FACE_MATCH_THRESHOLD := 90;
  BASE_DIR := "/srv/app"
|}.

Definition sim0 (fl : list string) : Sim :=
  {| bucket := ∅; collection_exists := false; faces := []; faults := fl |}.

(** A fresh process: nothing on disk, nothing remote. *)
Definition world0 (fl : list string) : @World SimAws :=
  @Build_World SimAws ∅ None (sim0 fl) [].

Definition file_ (n c : string) : UploadedFile := {| name := n; chunks := [b_ c] |}.

Definition upload_request (gallery : list UploadedFile) (reference : list UploadedFile)
  : HttpRequest :=
  {| method := "POST";
     FILES := map (pair "gallery_images") gallery
              ++ map (pair "reference_image") reference;
     body := Not_json |}.

Definition req_abc : HttpRequest :=
  upload_request [file_ "a.jpg" "Alice"; file_ "b.jpg" "Alice"; file_ "c.PNG" "Carol"]
                 [file_ "ref.jpg" "A?"].

Definition named_bytes (l : list (string * string)) : gmap string bytes :=
  list_to_map (map (fun kc => (fst kc, b_ (snd kc))) l).

(** A process with the given local files, and a bucket with the given
    objects. *)
Definition world_with (local remote_objects : list (string * string))
    (fl : list string) : @World SimAws :=
  @Build_World SimAws (named_bytes local) None
    {| bucket := named_bytes remote_objects; collection_exists := true;
       faces := []; faults := fl |} [].

Definition pa : string := "/srv/app/uploads/a.jpg".
Definition pb : string := "/srv/app/uploads/b.jpg".

(** Two gallery files of the same content, saved and uploaded. *)
Definition world_ab (fl : list string) : @World SimAws :=
  world_with [(pa, "Alice"); (pb, "Alice")] [("a.jpg", "Alice"); ("b.jpg", "Alice")] fl.

(** The same two files in one upload request, and a request whose first
    file has no image extension. *)
Definition req_dup : HttpRequest :=
  upload_request [file_ "a.jpg" "Alice"; file_ "b.jpg" "Alice"] [file_ "ref.jpg" "A?"].

Definition req_txt : HttpRequest :=
  upload_request [file_ "a.txt" "Alice"; file_ "b.jpg" "Alice"] [file_ "ref.jpg" "A?"].

(** A process that has served an earlier upload of [old.jpg]. *)
Definition req_old : HttpRequest :=
  upload_request [file_ "old.jpg" "Anna, last year"] [file_ "ref.jpg" "A?"].

Definition world_old : @World SimAws := snd (upload_images sim_cfg req_old (world0 [])).

Definition req_new : HttpRequest :=
  upload_request [file_ "new.jpg" "Anna, today"; file_ "notes.txt" "A note"]
                 [file_ "ref.jpg" "A?"].

(** The same name uploaded again with another content. *)
Definition req_old_again : HttpRequest :=
  upload_request [file_ "old.jpg" "Anna, retouched"; file_ "new.jpg" "Anna, today"]
                 [file_ "ref.jpg" "A?"].

(** A process whose cache file was cut short while being written. *)
Definition world_corrupt : @World SimAws :=
  @Build_World SimAws ∅ (Some Not_json) (sim0 []) [].

(** A process whose cache file holds bytes that are not text. *)
Definition world_undecodable : @World SimAws :=
  @Build_World SimAws ∅ (Some (Unreadable UnicodeDecodeError)) (sim0 []) [].

(** An upload without its reference image. *)
Definition req_no_reference : HttpRequest :=
  upload_request [file_ "a.jpg" "Alice"] [].

(** A bucket with two objects, and a request for one of them and for a key
    that is not there. *)
Definition world_bucket : @World SimAws :=
  world_with [] [("a.jpg", "Alice"); ("c.PNG", "Carol")] [].

Definition zip_request (keys : list JSON) : HttpRequest :=
  {| method := "POST"; FILES := [];
     body := Json_text (JObj [("keys", JArr keys)]) |}.

Definition keys_c_gone_a : list JSON := [JStr "c.PNG"; JStr "gone.jpg"; JStr "a.jpg"].

(** The two files of [world_ab], with a cache file that holds the JSON
    list [[]] instead of an object. *)
Definition world_list_cache : @World SimAws :=
  @Build_World SimAws (files (world_ab [])) (Some (Json_text (JArr [])))
    (remote (world_ab [])) [].

(** ** More ways to read the events *)

Definition index_call (ev : Event) : bool :=
  match ev with
  | E_index_faces _ _ => true
  | _ => false
  end.

Definition index_failed (ev : Event) : bool :=
  match ev with
  | E_index_faces _ (Raise _) => true
  | _ => false
  end.

Definition create_event (ev : Event) : bool :=
  match ev with
  | E_create_collection _ => true
  | _ => false
  end.

Definition upload_file_event (ev : Event) : bool :=
  match ev with
  | E_upload_file _ _ _ => true
  | _ => false
  end.

Definition presign_event (ev : Event) : bool :=
  match ev with
  | E_generate_presigned_url _ _ => true
  | _ => false
  end.

Definition get_event (ev : Event) : bool :=
  match ev with
  | E_get_object _ _ => true
  | _ => false
  end.

(** The characters of a lower-case hexadecimal numeral. *)
Definition is_hex_lower (c : ascii) : bool :=
  let n := nat_of_ascii c in
  ((48 <=? n)%nat && (n <=? 57)%nat) || ((97 <=? n)%nat && (n <=? 102)%nat).

(** The path under which a gallery file is saved. *)
Definition saved_path (cfg : Config) (file : UploadedFile) : string :=
  os_path_join (UPLOAD_FOLDER cfg) (name file).

(** What the local files are after the files of [saved] were written, in
    order, over [fs]: the last file written under a path is the one there. *)
Definition written (cfg : Config) (saved : list UploadedFile)
    (fs : gmap string bytes) (p : string) : option bytes :=
  match last (filter (fun g => bool_decide (saved_path cfg g = p)) saved) with
  | Some g => Some (concat (chunks g))
  | None => fs !! p
  end.

(** The image paths of a list. *)
Definition image_paths (paths : list string) : list string :=
  filter (fun p => is_image_name (os_path_basename p)) paths.

(** A process with [a.jpg] saved and uploaded, asked to index it and a path
    that is not on disk. *)
Definition pmissing : string := "/srv/app/uploads/missing.jpg".

Definition world_a : @World SimAws :=
  world_with [(pa, "Alice")] [("a.jpg", "Alice")] [].

(** The path and key of an upload, the image of a search, the name of an
    index call. *)
Definition uploaded (ev : Event) : option (string * string) :=
  match ev with
  | E_upload_file path key _ => Some (path, key)
  | _ => None
  end.

Definition searched (ev : Event) : option bytes :=
  match ev with
  | E_search_faces_by_image image _ => Some image
  | _ => None
  end.

Definition indexed_name (ev : Event) : option string :=
  match ev with
  | E_index_faces filename _ => Some filename
  | _ => None
  end.

(** The upload folder holds regular files only: every local file below it
    is an entry of it.  [os.remove] raises on a directory, and [os.listdir]
    lists directories too; the sweep is modelled for such a folder. *)
Definition flat_folder (cfg : Config) (fs : gmap string bytes) : bool :=
  forallb (fun p => match strip_prefix (UPLOAD_FOLDER cfg +:+ "/") p with
                    | Some _ => match entry_name (UPLOAD_FOLDER cfg) p with
                                | Some _ => true
                                | None => false
                                end
                    | None => true
                    end)
          (map fst (map_to_list fs)).

(** A process that shares its disk with others: a file of another request
    in the upload folder, and a file of the application next to it. *)
Definition world_shared : @World SimAws :=
  world_with [("/srv/app/uploads/other.jpg", "of another request");
              ("/srv/app/manage.py", "import django")] [] [].

(** The value under [keys] in the body of a request, when the body is a
    JSON object. *)
Definition body_keys (request : HttpRequest) : option JSON :=
  match body request with
  | Json_text (JObj d) => Some (default (JArr []) (dict_get d "keys"))
  | _ => None
  end.

Definition zip_request_of (keys : JSON) : HttpRequest :=
  {| method := "POST"; FILES := []; body := Json_text (JObj [("keys", keys)]) |}.

(** ** Fetching each key in turn

    What the archive is said to hold, in terms of the bucket alone. *)

Section Archive.
Context {A : AwsModel}.

(** The outcome of the fetch of each key, in turn, the bucket moving from
    one call to the next.  A key that is not a string is refused by the
    client, before any call. *)
Fixpoint fetch_each (keys : list JSON) (a : aws) : list (JSON * result bytes) * aws :=
  match keys with
  | [] => ([], a)
  | key :: rest =>
      let '(r, a') := match key with
                      | JStr k => get_object k a
                      | _ => (Raise ParamValidationError, a)
                      end in
      let '(rs, a'') := fetch_each rest a' in
      ((key, r) :: rs, a'')
  end.
End Archive.

(** The call behind an outcome, when there was one. *)
Definition get_call (kr : JSON * result bytes) : option Event :=
  match fst kr with
  | JStr k => Some (E_get_object k (snd kr))
  | _ => None
  end.

(** The key and the content of a fetch that went through. *)
Definition fetched_key (kr : JSON * result bytes) : option (string * bytes) :=
  match kr with
  | (JStr k, Ok content) => Some (k, content)
  | _ => None
  end.

(** A name that the archive keeps: not empty once cut at its first NUL, and
    of a length that fits the header of an entry. *)
Definition kept_name (k : string) : bool :=
  negb (bool_decide (zip_name k = ""))
  && (Z.of_nat (String.length (zip_name k)) <=? 65535)%Z.

Definition archive_entry (kc : string * bytes) : option (string * bytes) :=
  if kept_name (fst kc) then Some (zip_name (fst kc), snd kc) else None.


(** A key with a NUL character inside, and one that starts with it. *)
Definition key_nul : string := String "x" (String Ascii.zero "y.jpg").
Definition nul_first : string := String Ascii.zero "y.jpg".

Definition world_nul : @World SimAws :=
  @Build_World SimAws ∅ None
    {| bucket := list_to_map [(key_nul, b_ "Xavier"); (nul_first, b_ "Yann");
                              ("a.jpg", b_ "Alice")];
       collection_exists := true; faces := []; faults := [] |} [].

(** ** The ways a POST to the upload view can end

    Each with the events of the request, in order, for the runs in which
    the local file operations go through.  [created r0] says that the
    collection is there after the first call. *)

Definition created (r0 : result unit) : Prop :=
  r0 = Ok tt \/ r0 = Raise ResourceAlreadyExistsException.

(** Events of the indexing loop, with index calls only for image names
    among [names]. *)
Definition index_calls_within (names : list string) (ixs : list Event) : Prop :=
  Forall index_event ixs /\
  forall n r1, E_index_faces n r1 ∈ ixs -> is_image_name n = true /\ n ∈ names.

Inductive upload_outcome (cfg : Config) (request : HttpRequest)
  : result HttpResponse -> list Event -> Prop :=
| Create_failed (e : exn) :
    e <> ResourceAlreadyExistsException ->
    upload_outcome cfg request (Raise e) [E_create_collection (Raise e)]
| Files_missing (r0 : result unit) :
    created r0 ->
    missing_files (getlist "gallery_images" (FILES request))
                  (get "reference_image" (FILES request)) = true ->
    upload_outcome cfg request (Ok (error_response "Missing files"))
      [E_create_collection r0]
| Upload_failed (r0 : result unit) (e : exn) (done : list UploadedFile)
    (file : UploadedFile) (rest : list UploadedFile) :
    created r0 ->
    getlist "gallery_images" (FILES request) = done ++ file :: rest ->
    upload_outcome cfg request (Raise e)
      ([E_create_collection r0] ++ map (upload_event cfg) done
       ++ [E_upload_file (saved_path cfg file) (name file) (Raise e)])
| Indexing_failed (r0 : result unit) (e : exn) (ixs : list Event) :
    created r0 ->
    index_calls_within (batch_filenames cfg request) ixs ->
    upload_outcome cfg request (Raise e)
      ([E_create_collection r0]
       ++ map (upload_event cfg) (getlist "gallery_images" (FILES request)) ++ ixs)
| Search_failed (r0 : result unit) (e : exn) (ixs : list Event)
    (reference : UploadedFile) :
    created r0 ->
    get "reference_image" (FILES request) = Some reference ->
    index_calls_within (batch_filenames cfg request) ixs ->
    upload_outcome cfg request (Raise e)
      ([E_create_collection r0]
       ++ map (upload_event cfg) (getlist "gallery_images" (FILES request)) ++ ixs
       ++ [E_search_faces_by_image (concat (chunks reference)) (Raise e)])
| Match_without_id (r0 : result unit) (ixs : list Event) (reference : UploadedFile)
    (resp : SearchResponse) :
    created r0 ->
    get "reference_image" (FILES request) = Some reference ->
    index_calls_within (batch_filenames cfg request) ixs ->
    (exists m, m ∈ default [] (FaceMatches resp) /\ Face_ExternalImageId m = None) ->
    upload_outcome cfg request (Raise (KeyError "ExternalImageId"))
      ([E_create_collection r0]
       ++ map (upload_event cfg) (getlist "gallery_images" (FILES request)) ++ ixs
       ++ [E_search_faces_by_image (concat (chunks reference)) (Ok resp)])
| Matches_found (r0 : result unit) (ixs : list Event) (reference : UploadedFile)
    (resp : SearchResponse) (ids keys : list string) (rs : list (result string)) :
    created r0 ->
    get "reference_image" (FILES request) = Some reference ->
    index_calls_within (batch_filenames cfg request) ixs ->
    map Face_ExternalImageId (default [] (FaceMatches resp)) = map Some ids ->
    keys = filter (fun m => in_list m (batch_filenames cfg request)) ids ->
    length rs = length keys ->
    upload_outcome cfg request
      (Ok (matches_response (zip_with (url_of cfg) keys rs) keys))
      ([E_create_collection r0]
       ++ map (upload_event cfg) (getlist "gallery_images" (FILES request)) ++ ixs
       ++ [E_search_faces_by_image (concat (chunks reference)) (Ok resp)]
       ++ zip_with E_generate_presigned_url keys rs).

(** * Properties *)

(** ** The digest, on the test suite of RFC 1321 and on two blocks *)

Example md5_empty : MD5.hexdigest (b_ "") = "d41d8cd98f00b204e9800998ecf8427e".
Proof. vm_compute. reflexivity. Qed.

Example md5_abc : MD5.hexdigest (b_ "abc") = "900150983cd24fb0d6963f7d28e17f72".
Proof. vm_compute. reflexivity. Qed.

Example md5_two_blocks :
  MD5.hexdigest
    (b_ "01234567890123456789012345678901234567890123456789012345678901234567890123456789")
  = "0faef1f4cb01d560d59016a2d5e91da6".
Proof. vm_compute. reflexivity. Qed.

(** ** Strings and paths *)

Lemma append_nil (b : string) : "" +:+ b = b.
Proof. reflexivity. Qed.

Lemma append_cons (c : ascii) (a b : string) :
  String c a +:+ b = String c (a +:+ b).
Proof. reflexivity. Qed.

Ltac app_simpl := rewrite ?append_cons, ?append_nil in *; simpl in *.

Lemma append_assoc (a b c : string) : (a +:+ b) +:+ c = a +:+ (b +:+ c).
Proof. induction a as [|x a IH]; app_simpl; [reflexivity | now rewrite IH]. Qed.

Lemma append_inv_head (a b c : string) : a +:+ b = a +:+ c -> b = c.
Proof. induction a as [|x a IH]; app_simpl; [auto | intros [=]; auto]. Qed.

Lemma length_append (a b : string) :
  String.length (a +:+ b) = String.length a + String.length b.
Proof. induction a as [|x a IH]; app_simpl; [reflexivity | now rewrite IH]. Qed.

Lemma has_sep_append (a b : string) : has_sep (a +:+ b) = has_sep a || has_sep b.
Proof.
  induction a as [|x a IH]; app_simpl; [reflexivity|].
  rewrite IH. now rewrite orb_assoc.
Qed.

Lemma basename_no_sep (n : string) : has_sep n = false -> os_path_basename n = n.
Proof.
  destruct n as [|c r]; simpl; [reflexivity|].
  intros [Hc Hr]%orb_false_elim. now rewrite Hr, Hc.
Qed.

Lemma basename_after_sep (a n : string) :
  has_sep n = false -> os_path_basename (a +:+ "/" +:+ n) = n.
Proof.
  intros Hn. induction a as [|c a IH]; app_simpl.
  - now rewrite Hn.
  - rewrite has_sep_append. app_simpl. now rewrite orb_true_r.
Qed.

Lemma startswith_sep (n : string) : has_sep n = false -> startswith n "/" = false.
Proof.
  destruct n as [|c r]; simpl; [reflexivity|].
  intros [Hc _]%orb_false_elim. apply bool_decide_eq_false in Hc.
  destruct (bool_decide ("/"%char = c)) eqn:E; [|reflexivity].
  apply bool_decide_eq_true in E. now exfalso; apply Hc.
Qed.

Lemma endswith_split (p q : string) :
  endswith p q = true -> exists a, p = a +:+ q.
Proof.
  induction p as [|c p IH]; simpl.
  - rewrite orb_false_r. intros ->%bool_decide_eq_true. now exists "".
  - intros [->%bool_decide_eq_true | H]%orb_true_elim.
    + now exists "".
    + destruct (IH H) as [a ->]. now exists (String c a).
Qed.

(** [os.path.basename(os.path.join(d, n))] is [n] for a base name [n]. *)
Lemma basename_join (d n : string) :
  has_sep n = false -> os_path_basename (os_path_join d n) = n.
Proof.
  intros Hn. unfold os_path_join. rewrite (startswith_sep n Hn).
  destruct (bool_decide (d = "")) eqn:Hd; simpl.
  - apply bool_decide_eq_true in Hd. subst d. app_simpl. now apply basename_no_sep.
  - destruct (endswith d "/") eqn:He.
    + destruct (endswith_split _ _ He) as [a ->].
      rewrite append_assoc. now apply basename_after_sep.
    + now apply basename_after_sep.
Qed.

Lemma endswith_short (a b q : string) :
  String.length q <= String.length b -> endswith (a +:+ b) q = endswith b q.
Proof.
  intros Hl. induction a as [|c a IH]; app_simpl; [reflexivity|].
  rewrite IH. destruct (bool_decide _) eqn:E; [|reflexivity].
  apply bool_decide_eq_true in E. apply (f_equal String.length) in E.
  simpl in E. rewrite length_append in E. lia.
Qed.

Lemma strip_prefix_Some (q p r : string) :
  strip_prefix q p = Some r <-> p = q +:+ r.
Proof.
  revert p. induction q as [|a q IH]; intros p; app_simpl.
  - split; congruence.
  - destruct p as [|b p]; [split; discriminate|].
    destruct (bool_decide (a = b)) eqn:E.
    + apply bool_decide_eq_true in E. subst b. rewrite IH.
      split; [intros ->; reflexivity | intros [=]; assumption].
    + apply bool_decide_eq_false in E. split; [discriminate|].
      intros [= Hab _]. now exfalso; apply E.
Qed.

Lemma entry_name_Some (d p n : string) :
  entry_name d p = Some n <->
  p = d +:+ "/" +:+ n /\ n <> "" /\ has_sep n = false.
Proof.
  unfold entry_name. destruct (strip_prefix (d +:+ "/") p) as [r|] eqn:E.
  - apply strip_prefix_Some in E. rewrite append_assoc in E. subst p.
    destruct (bool_decide (r = "")) eqn:E1; simpl.
    + apply bool_decide_eq_true in E1. subst r. split; [discriminate|].
      intros (H & Hn & _). apply append_inv_head in H. app_simpl.
      injection H as H. congruence.
    + apply bool_decide_eq_false in E1. destruct (has_sep r) eqn:E2.
      * split; [discriminate|]. intros (H & _ & Hs).
        apply append_inv_head in H. app_simpl. injection H as H. congruence.
      * split.
        -- intros [= <-]. auto.
        -- intros (H & _ & _). apply append_inv_head in H. app_simpl.
           injection H as H. congruence.
  - split; [discriminate|]. intros (-> & _ & _).
    assert (H : strip_prefix (d +:+ "/") (d +:+ "/" +:+ n) = Some n).
    { apply strip_prefix_Some. now rewrite append_assoc. }
    congruence.
Qed.

(** ** Computations *)

Lemma bind_inv {W T U} (m : M W T) (k : T -> M W U) (w w' : W) (r : result U) :
  bind m k w = (r, w') ->
  (exists x w1, m w = (Ok x, w1) /\ k x w1 = (r, w')) \/
  (exists e, m w = (Raise e, w') /\ r = Raise e).
Proof.
  unfold bind. destruct (m w) as [[x|e] w1].
  - intros H. left. eauto.
  - intros [= <- <-]. right. eauto.
Qed.

Lemma bind_ok {W T U} (m : M W T) (k : T -> M W U) (w w' : W) (y : U) :
  bind m k w = (Ok y, w') ->
  exists x w1, m w = (Ok x, w1) /\ k x w1 = (Ok y, w').
Proof.
  intros [H | (e & _ & H)]%bind_inv; [assumption | discriminate].
Qed.

Lemma bind_eq {W T U} (m : M W T) (k : T -> M W U) (w w1 : W) (x : T) :
  m w = (Ok x, w1) -> bind m k w = k x w1.
Proof. unfold bind. now intros ->. Qed.

Lemma bind_raise {W T U} (m : M W T) (k : T -> M W U) (w w1 : W) (e : exn) :
  m w = (Raise e, w1) -> bind m k w = (Raise e, w1).
Proof. unfold bind. now intros ->. Qed.

Lemma foldM_app {W T U} (f : T -> U -> M W U) (l1 l2 : list T) (acc : U) (w : W) :
  foldM f (l1 ++ l2) acc w =
  bind (foldM f l1 acc) (fun acc' => foldM f l2 acc') w.
Proof.
  revert acc w. induction l1 as [|x l1 IH]; intros acc w; simpl.
  - reflexivity.
  - unfold bind in *. destruct (f x acc w) as [[a|e] w1]; [|reflexivity].
    apply IH.
Qed.

(** ** Dicts *)

Lemma dict_has_set (d : dict) (k : string) (v : JSON) :
  dict_has (dict_set d k v) k = true.
Proof.
  unfold dict_has. induction d as [|[k' v'] d IH]; simpl.
  - now rewrite bool_decide_eq_true_2.
  - destruct (bool_decide (k' = k)) eqn:E; simpl.
    + now rewrite bool_decide_eq_true_2.
    + now rewrite E.
Qed.

Lemma dict_has_set_mono (d : dict) (k k' : string) (v : JSON) :
  dict_has d k' = true -> dict_has (dict_set d k v) k' = true.
Proof.
  unfold dict_has. induction d as [|[k0 v0] d IH]; simpl; [discriminate|].
  destruct (bool_decide (k0 = k)) eqn:E; simpl.
  - apply bool_decide_eq_true in E. subst k0.
    destruct (bool_decide (k = k')); auto.
  - destruct (bool_decide (k0 = k')); auto.
Qed.

Section Proofs.
Context {A : AwsModel}.
Variable cfg : Config.

Implicit Types (w : World) (cache : JSON) (d : dict).

Lemma call_inv {T} (f : aws -> result T * aws) (ev : result T -> Event)
    w w' (r : result T) :
  call f ev w = (r, w') ->
  w' = emit (ev r) (set_remote (snd (f (remote w))) w) /\
  f (remote w) = (r, remote w').
Proof.
  unfold call. destruct (f (remote w)) as [r0 a'] eqn:E.
  intros [= <- <-]. simpl. auto.
Qed.

Lemma read_file_inv (path : string) w w' (r : result bytes) :
  read_file path w = (r, w') ->
  w' = w /\
  match r with
  | Ok b => files w !! path = Some b
  | Raise e => files w !! path = None /\ e = FileNotFoundError path
  end.
Proof.
  unfold read_file. destruct (files w !! path) eqn:E; intros [= <- <-]; auto.
Qed.

Lemma file_hash_present (path : string) (content : bytes) w :
  files w !! path = Some content ->
  file_hash path w = (Ok (MD5.hexdigest content), w).
Proof.
  intros H. unfold file_hash, bind, read_file. now rewrite H.
Qed.

(** ** The indexing loop *)

Lemma index_one_not_image (path : string) cache w :
  is_image_name (os_path_basename path) = false ->
  index_one path cache w = (Ok cache, w).
Proof. intros H. unfold index_one. now rewrite H. Qed.

(** A file whose fingerprint is in the cache: one line printed, no call. *)
Lemma index_one_seen (path : string) (content : bytes) cache w :
  is_image_name (os_path_basename path) = true ->
  files w !! path = Some content ->
  py_contains (MD5.hexdigest content) cache = Ok true ->
  index_one path cache w
  = (Ok cache, emit (E_print_skipping (os_path_basename path)) w).
Proof.
  intros Himg Hf Hin. unfold index_one. rewrite Himg. simpl.
  rewrite (bind_eq _ _ _ _ _ (file_hash_present _ _ _ Hf)).
  unfold lift, bind, print, ret. now rewrite Hin.
Qed.

(** A new file whose index call returns: the cache gets its fingerprint. *)
Lemma index_one_indexed (path : string) (content : bytes) d w (a' : aws) :
  is_image_name (os_path_basename path) = true ->
  files w !! path = Some content ->
  dict_has d (MD5.hexdigest content) = false ->
  index_faces (os_path_basename path) (remote w) = (Ok tt, a') ->
  index_one path (JObj d) w
  = (Ok (JObj (dict_set d (MD5.hexdigest content) (JStr (os_path_basename path)))),
     emit (E_print_indexed (os_path_basename path))
       (emit (E_index_faces (os_path_basename path) (Ok tt)) (set_remote a' w))).
Proof.
  intros Himg Hf Hin Hix. unfold index_one. rewrite Himg. simpl.
  rewrite (bind_eq _ _ _ _ _ (file_hash_present _ _ _ Hf)).
  unfold lift, bind, try_except, call, print, ret. simpl.
  now rewrite Hin, Hix.
Qed.

(** A new file whose index call raises: the cache is as it was. *)
Lemma index_one_failed (path : string) (content : bytes) cache w (e : exn) (a' : aws) :
  is_image_name (os_path_basename path) = true ->
  files w !! path = Some content ->
  py_contains (MD5.hexdigest content) cache = Ok false ->
  index_faces (os_path_basename path) (remote w) = (Raise e, a') ->
  index_one path cache w
  = (Ok cache,
     emit (E_print_failed (os_path_basename path) e)
       (emit (E_index_faces (os_path_basename path) (Raise e)) (set_remote a' w))).
Proof.
  intros Himg Hf Hin Hix. unfold index_one. rewrite Himg. simpl.
  rewrite (bind_eq _ _ _ _ _ (file_hash_present _ _ _ Hf)).
  unfold lift, bind, try_except, call, print, ret. simpl.
  now rewrite Hin, Hix.
Qed.

(** Whatever a turn of the loop does, local files and the persisted cache
    stay, and the events it adds are index calls and printed lines. *)
Lemma index_one_frame (path : string) cache w w' (r : result JSON) :
  index_one path cache w = (r, w') ->
  files w' = files w /\ cache_file w' = cache_file w /\
  exists evs, events w' = events w ++ evs /\ Forall index_event evs.
Proof.
  unfold index_one. destruct (negb _).
  { intros [= <- <-]. repeat split; auto. exists []. now rewrite app_nil_r. }
  unfold file_hash, bind, read_file, lift, ret.
  destruct (files w !! path) as [content|].
  2:{ intros [= <- <-]. repeat split; auto. exists []. now rewrite app_nil_r. }
  destruct (py_contains _ cache) as [[|]|e].
  - unfold print. intros [= <- <-]. simpl. repeat split; auto.
    exists [E_print_skipping (os_path_basename path)].
    split; [reflexivity | repeat constructor].
  - unfold try_except, bind, call, print, ret.
    destruct (index_faces _ _) as [[[]|e] a'].
    + destruct (py_setitem _ _ _) as [c'|e]; intros [= <- <-]; simpl;
        repeat split; auto; eexists; rewrite <- ?app_assoc; simpl;
        (split; [reflexivity | repeat constructor]).
    + intros [= <- <-]; simpl; repeat split; auto; eexists;
        rewrite <- ?app_assoc; simpl; (split; [reflexivity | repeat constructor]).
  - intros [= <- <-]. repeat split; auto. exists []. now rewrite app_nil_r.
Qed.

Lemma index_loop_frame (paths : list string) cache w w' (r : result JSON) :
  foldM index_one paths cache w = (r, w') ->
  files w' = files w /\ cache_file w' = cache_file w /\
  exists evs, events w' = events w ++ evs /\ Forall index_event evs.
Proof.
  revert cache w. induction paths as [|p paths IH]; intros cache w; simpl.
  - intros [= <- <-]. repeat split; auto. exists []. now rewrite app_nil_r.
  - intros [(c1 & w1 & H1 & H2) | (e & H1 & ->)]%bind_inv.
    + apply index_one_frame in H1 as (F1 & C1 & evs1 & E1 & P1).
      apply IH in H2 as (F2 & C2 & evs2 & E2 & P2).
      repeat split; try congruence.
      exists (evs1 ++ evs2). rewrite E2, E1, app_assoc. split; auto.
      now apply Forall_app.
    + now apply index_one_frame in H1.
Qed.

(** On a dict, a turn of the loop only adds keys. *)
Lemma index_one_dict (path : string) d w w' cache' :
  index_one path (JObj d) w = (Ok cache', w') ->
  exists d', cache' = JObj d' /\
             forall k, dict_has d k = true -> dict_has d' k = true.
Proof.
  unfold index_one. destruct (negb _).
  { intros [= <- <-]. eauto. }
  unfold file_hash, bind, read_file, lift, ret.
  destruct (files w !! path) as [content|]; [|discriminate].
  simpl. destruct (dict_has d _).
  - unfold print. intros [= <- <-]. eauto.
  - unfold try_except, bind, call, print, ret.
    destruct (index_faces _ _) as [[[]|e] a']; simpl.
    + intros [= <- <-]. eexists. split; [reflexivity|].
      intros k. apply dict_has_set_mono.
    + intros [= <- <-]. eauto.
Qed.

Lemma index_loop_dict (paths : list string) d w w' cache' :
  foldM index_one paths (JObj d) w = (Ok cache', w') ->
  exists d', cache' = JObj d' /\
             forall k, dict_has d k = true -> dict_has d' k = true.
Proof.
  revert d w. induction paths as [|p paths IH]; intros d w; simpl.
  - intros [= <- <-]. eauto.
  - intros (c1 & w1 & H1 & H2)%bind_ok.
    apply index_one_dict in H1 as (d1 & -> & M1).
    apply IH in H2 as (d2 & -> & M2). eauto.
Qed.

(** The cache changes in a turn of the loop only after an index call that
    returned. *)
Lemma cache_entry_needs_index (path : string) cache cache' w w' :
  index_one path cache w = (Ok cache', w') ->
  cache' = cache \/
  exists content a',
    files w !! path = Some content /\
    index_faces (os_path_basename path) (remote w) = (Ok tt, a') /\
    py_setitem cache (MD5.hexdigest content) (JStr (os_path_basename path))
    = Ok cache'.
Proof.
  unfold index_one. destruct (negb _).
  { intros [= <- <-]. auto. }
  unfold file_hash, bind, read_file, lift, ret.
  destruct (files w !! path) as [content|] eqn:Ef; [|discriminate].
  destruct (py_contains _ cache) as [[|]|e]; [| |discriminate].
  - unfold print. intros [= <- <-]. auto.
  - unfold try_except, bind, call, print, ret.
    destruct (index_faces _ _) as [[[]|e] a'] eqn:E.
    + destruct (py_setitem _ _ _) as [c'|e] eqn:E'; intros [= <- <-]; [|auto].
      right. exists content, a'. auto.
    + intros [= <- <-]. auto.
Qed.

(** C5. A gallery file whose index call raises is skipped: the turn of the
    loop returns normally with the cache unchanged (no entry for the file's
    fingerprint), only the failed call and the printed line are added, and
    the loop goes on with the remaining files. *)
Theorem index_failure_skips_file (path : string) (rest : list string)
    (content : bytes) cache w (e : exn) (a' : aws) :
  is_image_name (os_path_basename path) = true ->
  files w !! path = Some content ->
  py_contains (MD5.hexdigest content) cache = Ok false ->
  index_faces (os_path_basename path) (remote w) = (Raise e, a') ->
  exists w',
    index_one path cache w = (Ok cache, w') /\
    events w' = events w ++ [E_index_faces (os_path_basename path) (Raise e);
                             E_print_failed (os_path_basename path) e] /\
    files w' = files w /\ cache_file w' = cache_file w /\
    foldM index_one (path :: rest) cache w = foldM index_one rest cache w'.
Proof.
  intros Himg Hf Hin Hix.
  pose proof (index_one_failed _ _ _ _ _ _ Himg Hf Hin Hix) as H.
  eexists. split; [exact H|]. simpl. rewrite <- app_assoc. simpl.
  repeat split; auto. now rewrite (bind_eq _ _ _ _ _ H).
Qed.

(** On a dict and files that are there, the loop runs to its end. *)
Lemma index_one_total (path : string) d w :
  is_Some (files w !! path) ->
  exists d' w', index_one path (JObj d) w = (Ok (JObj d'), w').
Proof.
  intros [content Hf]. unfold index_one. destruct (negb _); [eauto|].
  rewrite (bind_eq _ _ _ _ _ (file_hash_present _ _ _ Hf)).
  unfold lift, bind, try_except, call, print, ret. simpl.
  destruct (dict_has d _); [eauto|].
  destruct (index_faces _ _) as [[[]|e] a']; simpl; eauto.
Qed.

Lemma index_loop_total (paths : list string) d w :
  Forall (fun p => is_Some (files w !! p)) paths ->
  exists d' w', foldM index_one paths (JObj d) w = (Ok (JObj d'), w').
Proof.
  revert d w. induction paths as [|p paths IH]; intros d w Hall; simpl; [eauto|].
  apply Forall_cons in Hall as [Hp Hall].
  destruct (index_one_total p d w Hp) as (d1 & w1 & H1).
  rewrite (bind_eq _ _ _ _ _ H1). apply IH.
  apply index_one_frame in H1 as (-> & _). exact Hall.
Qed.

(** C3 (amended). Two files of the same content, both with an image
    extension, the first processed before the second, the files in between
    readable, the cache a dict: if the fingerprint is in the cache already or
    the index call for the first returns, then the fingerprint is in the cache
    after the first, the loop reaches the second with the fingerprint still
    there, and the second is skipped: its turn of the loop prints one line
    and makes no call. *)
Theorem duplicate_content_skipped (p1 p2 : string) (between rest : list string)
    (content : bytes) d w :
  is_image_name (os_path_basename p1) = true ->
  is_image_name (os_path_basename p2) = true ->
  files w !! p1 = Some content ->
  files w !! p2 = Some content ->
  Forall (fun p => is_Some (files w !! p)) between ->
  dict_has d (MD5.hexdigest content) = true
    \/ fst (index_faces (os_path_basename p1) (remote w)) = Ok tt ->
  exists d1 w1 d2 w2,
    index_one p1 (JObj d) w = (Ok (JObj d1), w1) /\
    dict_has d1 (MD5.hexdigest content) = true /\
    foldM index_one (p1 :: between) (JObj d) w = (Ok (JObj d2), w2) /\
    dict_has d2 (MD5.hexdigest content) = true /\
    index_one p2 (JObj d2) w2
    = (Ok (JObj d2), emit (E_print_skipping (os_path_basename p2)) w2) /\
    foldM index_one (p1 :: between ++ p2 :: rest) (JObj d) w
    = foldM index_one rest (JObj d2) (emit (E_print_skipping (os_path_basename p2)) w2).
Proof.
  intros Himg1 Himg2 Hf1 Hf2 Hbetween Hfirst.
  assert (Hstep : exists d1 w1, index_one p1 (JObj d) w = (Ok (JObj d1), w1) /\
                                dict_has d1 (MD5.hexdigest content) = true).
  { destruct (dict_has d (MD5.hexdigest content)) eqn:Hin.
    - eexists _, _. split; [|exact Hin].
      apply (index_one_seen _ _ _ _ Himg1 Hf1). simpl. now rewrite Hin.
    - destruct Hfirst as [?|Hok]; [discriminate|].
      destruct (index_faces (os_path_basename p1) (remote w)) as [r a'] eqn:Hix.
      simpl in Hok. subst r. eexists _, _. split.
      + apply (index_one_indexed _ _ _ _ _ Himg1 Hf1 Hin Hix).
      + apply dict_has_set. }
  destruct Hstep as (d1 & w1 & H1 & Hd1).
  pose proof (index_one_frame _ _ _ _ _ H1) as (Hfiles1 & _).
  destruct (index_loop_total between d1 w1) as (d2 & w2 & Hrest).
  { now rewrite Hfiles1. }
  assert (Hloop : foldM index_one (p1 :: between) (JObj d) w = (Ok (JObj d2), w2)).
  { simpl. now rewrite (bind_eq _ _ _ _ _ H1). }
  destruct (index_loop_dict _ _ _ _ _ Hrest) as (d2' & [= <-] & Hmono).
  assert (Hd2 : dict_has d2 (MD5.hexdigest content) = true) by auto.
  assert (Hf2' : files w2 !! p2 = Some content).
  { destruct (index_loop_frame _ _ _ _ _ Hloop) as (-> & _). exact Hf2. }
  assert (H2 : index_one p2 (JObj d2) w2
               = (Ok (JObj d2), emit (E_print_skipping (os_path_basename p2)) w2)).
  { apply (index_one_seen _ _ _ _ Himg2 Hf2'). simpl. now rewrite Hd2. }
  exists d1, w1, d2, w2. repeat split; auto.
  change (p1 :: between ++ p2 :: rest) with ((p1 :: between) ++ p2 :: rest).
  rewrite foldM_app, (bind_eq _ _ _ _ _ Hloop). simpl.
  now rewrite (bind_eq _ _ _ _ _ H2).
Qed.

(** ** The sweep of the upload folder *)

Lemma UPLOAD_FOLDER_shape :
  UPLOAD_FOLDER cfg <> "" /\ endswith (UPLOAD_FOLDER cfg) "/" = false.
Proof.
  unfold UPLOAD_FOLDER, os_path_join.
  change (startswith "uploads" "/") with false. cbv iota.
  assert (H : forall x y, (0 < String.length y)%nat -> x +:+ y <> "").
  { intros x y Hy E. apply (f_equal String.length) in E.
    rewrite length_append in E. simpl in E. lia. }
  destruct (_ || _).
  - split; [apply H; simpl; lia|]. now rewrite endswith_short by (simpl; lia).
  - split; [apply H; simpl; lia|]. now rewrite endswith_short by (simpl; lia).
Qed.

(** Inside the upload folder, [os.path.join] puts one separator. *)
Lemma join_UPLOAD_FOLDER (n : string) :
  has_sep n = false ->
  os_path_join (UPLOAD_FOLDER cfg) n = UPLOAD_FOLDER cfg +:+ "/" +:+ n.
Proof.
  intros Hn. destruct UPLOAD_FOLDER_shape as [H1 H2].
  unfold os_path_join. rewrite (startswith_sep n Hn), H2.
  now rewrite bool_decide_eq_false_2.
Qed.

Lemma remove_each (ns : list string) w :
  NoDup ns ->
  (forall n, n ∈ ns ->
     has_sep n = false /\ is_Some (files w !! (UPLOAD_FOLDER cfg +:+ "/" +:+ n))) ->
  exists w',
    foldM (fun f _ => os_remove (os_path_join (UPLOAD_FOLDER cfg) f)) ns tt w
    = (Ok tt, w') /\
    events w' = events w /\ cache_file w' = cache_file w /\ remote w' = remote w /\
    forall p, files w' !! p
              = if decide (p ∈ (fun n => UPLOAD_FOLDER cfg +:+ "/" +:+ n) <$> ns)
                then None else files w !! p.
Proof.
  revert w. induction ns as [|n ns IH]; intros w Hnd Hall; simpl.
  - exists w. repeat split; auto.
  - apply NoDup_cons in Hnd as [Hn Hnd].
    destruct (Hall n) as [Hs [b Hb]]; [left|].
    pose (w1 := set_files (delete (UPLOAD_FOLDER cfg +:+ "/" +:+ n)) w).
    assert (H1 : os_remove (os_path_join (UPLOAD_FOLDER cfg) n) w = (Ok tt, w1)).
    { rewrite (join_UPLOAD_FOLDER n Hs). unfold os_remove. now rewrite Hb. }
    destruct (IH w1 Hnd) as (w' & Hrun & He & Hc & Hr & Hf).
    { intros n' Hn'. destruct (Hall n') as [Hs' Hp]; [now right|].
      split; [exact Hs'|]. unfold w1. simpl.
      rewrite lookup_delete_ne; [exact Hp|].
      intros E. do 2 apply append_inv_head in E. congruence. }
    exists w'. split; [now rewrite (bind_eq _ _ _ _ _ H1)|].
    repeat split; auto. intros p. rewrite Hf. unfold w1. simpl.
    destruct (decide (p = UPLOAD_FOLDER cfg +:+ "/" +:+ n)) as [->|Hp].
    + rewrite lookup_delete_eq.
      destruct (decide _); destruct (decide _) as [|Hx]; try reflexivity.
      all: exfalso; apply Hx; simpl; left.
    + rewrite lookup_delete_ne by congruence.
      destruct (decide _) as [H|H]; destruct (decide _) as [H'|H']; try reflexivity.
      * exfalso. apply H'. now right.
      * exfalso. apply elem_of_cons in H' as [?|?]; [congruence | contradiction].
Qed.

(** The sweep returns, and leaves no entry in the upload folder; nothing
    else changes. *)
Lemma remove_uploads_spec w :
  exists w',
    remove_uploads cfg w = (Ok tt, w') /\
    events w' = events w /\ cache_file w' = cache_file w /\ remote w' = remote w /\
    forall p, files w' !! p
              = match entry_name (UPLOAD_FOLDER cfg) p with
                | Some _ => None
                | None => files w !! p
                end.
Proof.
  unfold remove_uploads.
  set (ns := omap (entry_name (UPLOAD_FOLDER cfg)) (map fst (map_to_list (files w)))).
  assert (Hin : forall n, n ∈ ns <->
            has_sep n = false /\ n <> "" /\
            is_Some (files w !! (UPLOAD_FOLDER cfg +:+ "/" +:+ n))).
  { intros n. unfold ns. rewrite list_elem_of_omap. split.
    - intros (p & Hp & (-> & Hne & Hs)%entry_name_Some).
      change (map fst ?l) with (fst <$> l) in Hp.
      apply list_elem_of_fmap in Hp as ([p' b] & Heq & Hpb). simpl in Heq. subst p'.
      apply elem_of_map_to_list in Hpb. eauto.
    - intros (Hs & Hne & [b Hb]). exists (UPLOAD_FOLDER cfg +:+ "/" +:+ n). split.
      + change (map fst ?l) with (fst <$> l).
        apply list_elem_of_fmap. exists (UPLOAD_FOLDER cfg +:+ "/" +:+ n, b).
        split; [reflexivity|]. now apply elem_of_map_to_list.
      + apply entry_name_Some. auto. }
  assert (Hnd : NoDup ns).
  { unfold ns. change (map fst ?l) with (fst <$> l).
    generalize (NoDup_fst_map_to_list (files w)).
    generalize ((map_to_list (files w)).*1). intros l Hl.
    induction Hl as [|p l Hp Hl IH]; simpl; [constructor|].
    destruct (entry_name (UPLOAD_FOLDER cfg) p) as [n|] eqn:E; [|exact IH].
    constructor; [|exact IH].
    intros (p' & Hp' & E')%list_elem_of_omap.
    apply entry_name_Some in E as (-> & _). apply entry_name_Some in E' as (-> & _).
    contradiction. }
  destruct (remove_each ns w Hnd) as (w' & Hrun & He & Hc & Hr & Hf).
  { intros n Hn. apply Hin in Hn. tauto. }
  exists w'. split.
  { unfold os_listdir. unfold bind at 1. exact Hrun. }
  repeat split; auto. intros p. rewrite Hf.
  destruct (entry_name (UPLOAD_FOLDER cfg) p) as [n|] eqn:E.
  - pose proof E as (-> & Hne & Hs)%entry_name_Some.
    destruct (files w !! (UPLOAD_FOLDER cfg +:+ "/" +:+ n)) as [b|] eqn:Eb.
    + destruct (decide _) as [|Hx]; [reflexivity|].
      exfalso. apply Hx. apply list_elem_of_fmap. exists n.
      split; [reflexivity|]. apply Hin. eauto.
    + now destruct (decide _).
  - destruct (decide _) as [Hx|]; [|reflexivity].
    apply list_elem_of_fmap in Hx as (n & -> & Hn).
    apply Hin in Hn as (Hs & Hne & _).
    assert (entry_name (UPLOAD_FOLDER cfg) (UPLOAD_FOLDER cfg +:+ "/" +:+ n) = Some n)
      by (apply entry_name_Some; auto).
    congruence.
Qed.

(** ** The phases of the upload view *)

Lemma ensure_collection_exists_inv w w' (r : result unit) :
  ensure_collection_exists w = (r, w') ->
  exists r0,
    create_collection (remote w) = (r0, remote w') /\
    events w' = events w ++ [E_create_collection r0] /\
    files w' = files w /\ cache_file w' = cache_file w /\
    r = match r0 with
        | Ok _ | Raise ResourceAlreadyExistsException => Ok tt
        | Raise e => Raise e
        end.
Proof.
  unfold ensure_collection_exists, try_except, call.
  destruct (create_collection (remote w)) as [[[]|e] a'].
  - intros [= <- <-]. exists (Ok tt). simpl. auto.
  - destruct e; intros [= <- <-]; eexists (Raise _); simpl; auto.
Qed.

Lemma save_gallery_file_ok (file : UploadedFile) w w' (path : string) :
  save_gallery_file cfg file w = (Ok path, w') ->
  path = os_path_join (UPLOAD_FOLDER cfg) (name file) /\
  events w' = events w ++ [upload_event cfg file] /\
  cache_file w' = cache_file w.
Proof.
  unfold save_gallery_file, upload_to_s3, write_file.
  intros ([] & w1 & [= <-] & H)%bind_ok.
  apply bind_ok in H as ([] & w2 & H & [= <- <-]).
  apply bind_ok in H as (content & w3 & [-> _]%read_file_inv & H).
  apply call_inv in H as [-> _]. simpl. auto.
Qed.

Lemma save_gallery_ok (gallery : list UploadedFile) w w' (paths : list string) :
  mapM (save_gallery_file cfg) gallery w = (Ok paths, w') ->
  paths = map (fun file => os_path_join (UPLOAD_FOLDER cfg) (name file)) gallery /\
  events w' = events w ++ map (upload_event cfg) gallery /\
  cache_file w' = cache_file w.
Proof.
  revert w paths. induction gallery as [|f gallery IH]; intros w paths; simpl.
  - intros [= <- <-]. now rewrite app_nil_r.
  - intros (p & w1 & H1 & H)%bind_ok.
    apply bind_ok in H as (ps & w2 & H2 & [= <- <-]).
    apply save_gallery_file_ok in H1 as (-> & E1 & C1).
    apply IH in H2 as (-> & E2 & C2).
    rewrite E2, E1, <- app_assoc. split; [reflexivity|]. split; [reflexivity|].
    congruence.
Qed.

Lemma index_faces_if_new_frame (paths : list string) w w' (r : result unit) :
  index_faces_if_new paths w = (r, w') ->
  files w' = files w /\
  exists evs, events w' = events w ++ evs /\ Forall index_event evs.
Proof.
  unfold index_faces_if_new.
  assert (Hnil : exists evs, events w = events w ++ evs /\ Forall index_event evs).
  { exists []. now rewrite app_nil_r. }
  intros [(c & w1 & H1 & H) | (e & H1 & ->)]%bind_inv.
  - assert (w1 = w) as ->.
    { unfold load_cache in H1. destruct (cache_file w); now injection H1. }
    apply bind_inv in H as [(c' & w2 & H2 & H) | (e & H2 & ->)].
    + apply index_loop_frame in H2 as (F & _ & Hev).
      unfold save_cache in H. injection H as <- <-. simpl. auto.
    + apply index_loop_frame in H2 as (F & _ & Hev). auto.
  - assert (w' = w) as ->.
    { unfold load_cache in H1. destruct (cache_file w); now injection H1. }
    auto.
Qed.

Lemma external_ids_ok (l : list FaceMatch) w w' (ids : list string) :
  mapM external_image_id l w = (Ok ids, w') ->
  w' = w /\ map Face_ExternalImageId l = map Some ids.
Proof.
  revert w ids. induction l as [|m l IH]; intros w ids; simpl.
  - now intros [= <- <-].
  - intros (x & w1 & H1 & H)%bind_ok.
    apply bind_ok in H as (xs & w2 & H2 & [= <- <-]).
    unfold external_image_id in H1.
    destruct (Face_ExternalImageId m) as [x'|]; [|discriminate].
    injection H1 as <- <-. apply IH in H2 as [-> ->]. auto.
Qed.

(** The loop over the surviving matches never raises: each key gets the
    URL of its presign call, or the fallback URL when that call raised. *)
Lemma image_urls_spec (keys : list string) w :
  exists rs w',
    mapM (image_url cfg) keys w = (Ok (zip_with (url_of cfg) keys rs), w') /\
    length rs = length keys /\
    events w' = events w ++ zip_with E_generate_presigned_url keys rs /\
    files w' = files w /\ cache_file w' = cache_file w.
Proof.
  revert w. induction keys as [|k keys IH]; intros w; simpl.
  - exists [], w. now rewrite app_nil_r.
  - destruct (call (generate_presigned_url k 3600) (E_generate_presigned_url k) w)
      as [r w1] eqn:Hc.
    pose proof Hc as [-> _]%call_inv.
    destruct (IH (emit (E_generate_presigned_url k r)
                   (set_remote (snd (generate_presigned_url k 3600 (remote w))) w)))
      as (rs & w' & Hrun & Hlen & He & Hf & Hcf).
    exists (r :: rs), w'. simpl in *.
    assert (H1 : image_url cfg k w
                 = (Ok (url_of cfg k r),
                    emit (E_generate_presigned_url k r)
                      (set_remote (snd (generate_presigned_url k 3600 (remote w))) w))).
    { unfold image_url, try_except. rewrite Hc. now destruct r. }
    rewrite (bind_eq _ _ _ _ _ H1), (bind_eq _ _ _ _ _ Hrun).
    rewrite He, <- app_assoc. simpl. auto.
Qed.

Lemma map_JStr_inj (a b : list string) : map JStr a = map JStr b -> a = b.
Proof.
  revert b. induction a as [|x a IH]; intros [|y b]; simpl; try discriminate.
  - reflexivity.
  - intros [= -> H]. f_equal. now apply IH.
Qed.

(** The view has three responses; the matches response is its only 200. *)
Lemma upload_images_responses (request : HttpRequest) w w' (resp : HttpResponse) :
  upload_images cfg request w = (Ok resp, w') ->
  resp = error_response "Invalid request" \/
  resp = error_response "Missing files" \/
  exists urls keys, resp = matches_response urls keys.
Proof.
  unfold upload_images. destruct (negb _).
  { intros [= <- _]. auto. }
  intros ([] & w1 & _ & H)%bind_ok.
  destruct (missing_files _ _).
  { injection H as <- _. auto. }
  destruct (get "reference_image" (FILES request)) as [reference|].
  2:{ injection H as <- _. auto. }
  apply bind_ok in H as (paths & w2 & _ & H).
  apply bind_ok in H as ([] & w3 & _ & H).
  apply bind_ok in H as ([] & w4 & _ & H).
  apply bind_ok in H as (img & w5 & _ & H).
  apply bind_ok in H as (resp' & w6 & _ & H).
  apply bind_ok in H as (ids & w7 & _ & H).
  apply bind_ok in H as (urls & w8 & _ & H).
  apply bind_ok in H as ([] & w9 & _ & [= <- _]).
  right. right. eauto.
Qed.

(** What a request that ends in the matches response went through. *)
Lemma upload_images_ok (request : HttpRequest) w w' (urls keys : list string) :
  upload_images cfg request w = (Ok (matches_response urls keys), w') ->
  exists (reference : UploadedFile) (r0 : result unit) (evs_ix : list Event)
         (img : bytes) (resp : SearchResponse) (ids : list string)
         (rs : list (result string)),
    method request = "POST" /\
    missing_files (getlist "gallery_images" (FILES request))
                  (get "reference_image" (FILES request)) = false /\
    get "reference_image" (FILES request) = Some reference /\
    events w' = events w ++ [E_create_collection r0]
                ++ map (upload_event cfg) (getlist "gallery_images" (FILES request))
                ++ evs_ix ++ [E_search_faces_by_image img (Ok resp)]
                ++ zip_with E_generate_presigned_url keys rs /\
    Forall index_event evs_ix /\
    map Face_ExternalImageId (default [] (FaceMatches resp)) = map Some ids /\
    keys = filter (fun m => in_list m (batch_filenames cfg request)) ids /\
    length rs = length keys /\
    urls = zip_with (url_of cfg) keys rs /\
    forall p n, entry_name (UPLOAD_FOLDER cfg) p = Some n -> files w' !! p = None.
Proof.
  unfold upload_images.
  destruct (bool_decide (method request = "POST")) eqn:Hm; simpl; [|discriminate].
  apply bool_decide_eq_true in Hm.
  intros ([] & w1 & Hens & H)%bind_ok.
  destruct (missing_files _ _) eqn:Hmiss; [discriminate|].
  destruct (get "reference_image" (FILES request)) as [reference|] eqn:Href;
    [|discriminate].
  apply bind_ok in H as (paths & w2 & Hsave & H).
  apply bind_ok in H as ([] & w3 & [= <-] & H).
  apply bind_ok in H as ([] & w4 & Hix & H).
  apply bind_ok in H as (img & w5 & [-> Himg]%read_file_inv & H).
  apply bind_ok in H as (resp & w6 & [-> _]%call_inv & H).
  apply bind_ok in H as (ids & w7 & [-> Hids]%external_ids_ok & H).
  destruct (image_urls_spec
              (filter (fun m => in_list m (map os_path_basename paths)) ids)
              (emit (E_search_faces_by_image img (Ok resp))
                 (set_remote
                    (snd (search_faces_by_image img (FACE_MATCH_THRESHOLD cfg) 1000
                            (remote w4))) w4)))
    as (rs & w8 & Hurls & Hlen & He8 & _ & _).
  rewrite (bind_eq _ _ _ _ _ Hurls) in H.
  destruct (remove_uploads_spec w8) as (w9 & Hrm & He9 & _ & _ & Hf9).
  rewrite (bind_eq _ _ _ _ _ Hrm) in H.
  injection H as Hu Hk <-.
  apply map_JStr_inj in Hu. apply map_JStr_inj in Hk.
  apply ensure_collection_exists_inv in Hens as (r0 & _ & He1 & _).
  apply save_gallery_ok in Hsave as (-> & He2 & _).
  apply index_faces_if_new_frame in Hix as (_ & evs_ix & He4 & Hforall).
  assert (Hnames : map os_path_basename
                     (map (fun file => os_path_join (UPLOAD_FOLDER cfg) (name file))
                          (getlist "gallery_images" (FILES request)))
                   = batch_filenames cfg request).
  { unfold batch_filenames. now rewrite map_map. }
  rewrite Hnames in *.
  exists reference, r0, evs_ix, img, resp, ids, rs.
  repeat split; auto.
  - rewrite He9, He8. simpl. rewrite He4. simpl. rewrite He2, He1.
    subst keys. now rewrite <- !app_assoc.
  - now subst keys.
  - now subst keys urls.
  - intros p n Hp. now rewrite Hf9, Hp.
Qed.

(** ** The response of the upload view *)

Lemma batch_filenames_names (request : HttpRequest) :
  Forall (fun file => has_sep (name file) = false)
         (getlist "gallery_images" (FILES request)) ->
  batch_filenames cfg request = map name (getlist "gallery_images" (FILES request)).
Proof.
  unfold batch_filenames. induction 1 as [|f l Hf _ IH]; simpl; [reflexivity|].
  now rewrite IH, basename_join.
Qed.

Lemma omap_none {X Y} (f : X -> option Y) (l : list X) :
  Forall (fun x => f x = None) l -> omap f l = [].
Proof. induction 1 as [|x l Hx _ IH]; simpl; [reflexivity | now rewrite Hx]. Qed.

Lemma filter_none (P : Event -> bool) (l : list Event) :
  Forall (fun ev => P ev = false) l -> filter P l = [].
Proof.
  induction 1 as [|x l Hx _ IH]; [reflexivity|].
  rewrite filter_cons, IH. destruct (decide (P x)) as [H|]; [|reflexivity].
  rewrite Hx in H. contradiction.
Qed.

Lemma retrieval_urls_zip (keys : list string) (rs : list (result string)) :
  length rs = length keys ->
  omap (retrieval_url cfg) (zip_with E_generate_presigned_url keys rs)
  = zip keys (zip_with (url_of cfg) keys rs).
Proof.
  revert rs. induction keys as [|k keys IH]; intros [|r rs]; simpl; try discriminate.
  - reflexivity.
  - intros [= H]. now rewrite IH.
Qed.

Lemma count_occ_filter (P : string -> bool) (l : list string) (k : string) :
  P k = true ->
  count_occ string_dec (filter P l) k = count_occ string_dec l k.
Proof.
  intros Hk. induction l as [|x l IH]; [reflexivity|].
  rewrite filter_cons. destruct (decide (P x)) as [H|H]; simpl.
  - now rewrite IH.
  - destruct (string_dec x k) as [->|]; [|exact IH].
    rewrite Hk in H. exfalso. now apply H.
Qed.

(** The events of a request that ends in the matches response, sorted. *)
Lemma upload_events_ok (request : HttpRequest) w w' (urls keys : list string) :
  upload_images cfg request w = (Ok (matches_response urls keys), w') ->
  exists (evs : list Event) (img : bytes) (resp : SearchResponse) (ids : list string),
    events w' = events w ++ evs /\
    filter search_event evs = [E_search_faces_by_image img (Ok resp)] /\
    omap (retrieval_url cfg) evs = zip keys urls /\
    length urls = length keys /\
    map Face_ExternalImageId (default [] (FaceMatches resp)) = map Some ids /\
    keys = filter (fun m => in_list m (batch_filenames cfg request)) ids.
Proof.
  intros (reference & r0 & evs_ix & img & resp & ids & rs & _ & _ & _ & Hev & Hix
          & Hids & Hkeys & Hlen & Hurls & _)%upload_images_ok.
  eexists _, img, resp, ids. split; [exact Hev|].
  assert (Hup : forall l, Forall (fun ev => search_event ev = false
                                            /\ retrieval_url cfg ev = None)
                                 (map (upload_event cfg) l)).
  { induction l; simpl; constructor; auto. }
  assert (Hix' : Forall (fun ev => search_event ev = false
                                   /\ retrieval_url cfg ev = None) evs_ix).
  { eapply Forall_impl; [exact Hix|]. intros [] Hx; simpl in *; auto; contradiction. }
  assert (Hrs : Forall (fun ev => search_event ev = false)
                       (zip_with E_generate_presigned_url keys rs)).
  { clear. revert rs. induction keys; intros [|r rs]; simpl; constructor; auto. }
  repeat split; auto.
  - rewrite !filter_app.
    rewrite (filter_none _ (map _ _)), (filter_none _ evs_ix), (filter_none _ (zip_with _ _ _));
      auto; eapply Forall_impl; eauto; simpl; tauto.
  - rewrite !omap_app.
    rewrite (omap_none _ (map _ _)), (omap_none _ evs_ix);
      [|eapply Forall_impl; eauto; simpl; tauto..].
    simpl. rewrite retrieval_urls_zip by exact Hlen. now subst urls.
  - subst urls. rewrite length_zip_with_l_eq; auto.
Qed.

(** C1. In a request that ends in the matches response, with the gallery
    files under base names (as the framework delivers them), every key of the
    response is the name of a gallery file of that request, and every URL is
    the URL of such a key. *)
Theorem keys_name_batch_files (request : HttpRequest) w w' (urls keys : list string) :
  Forall (fun file => has_sep (name file) = false)
         (getlist "gallery_images" (FILES request)) ->
  upload_images cfg request w = (Ok (matches_response urls keys), w') ->
  (forall k, k ∈ keys -> k ∈ map name (getlist "gallery_images" (FILES request))) /\
  (forall u, u ∈ urls ->
     exists k r, k ∈ map name (getlist "gallery_images" (FILES request)) /\
                 u = url_of cfg k r).
Proof.
  intros Hnames (reference & r0 & evs_ix & img & resp & ids & rs & _ & _ & _ & _ & _
                 & _ & Hkeys & _ & Hurls & _)%upload_images_ok.
  rewrite (batch_filenames_names _ Hnames) in Hkeys.
  assert (Hk : forall k, k ∈ keys ->
                 k ∈ map name (getlist "gallery_images" (FILES request))).
  { intros k Hk. rewrite Hkeys in Hk. apply list_elem_of_filter in Hk as [Hin _].
    unfold in_list in Hin. now apply bool_decide_unpack in Hin. }
  split; [exact Hk|].
  intros u Hu. rewrite Hurls in Hu.
  apply elem_of_zip_with in Hu as (k & r & -> & Hin & _). eauto.
Qed.

(** C2. In a request that ends in the matches response, [matches] and [keys]
    have the same length, and the presign calls of the request, in order, are
    one per key: the URL at a position is the one generated for the key at
    that position (the fallback URL of that key when the call raised). *)
Theorem urls_match_keys (request : HttpRequest) w w' (urls keys : list string) :
  upload_images cfg request w = (Ok (matches_response urls keys), w') ->
  length urls = length keys /\
  exists evs, events w' = events w ++ evs /\
              omap (retrieval_url cfg) evs = zip keys urls.
Proof.
  intros (evs & img & resp & ids & Hev & _ & Hurls & Hlen & _)%upload_events_ok.
  eauto.
Qed.

(** C9. The keys of the response are the identifiers of the one search of
    the request, filtered as a list by membership in the batch: order and
    repetitions are kept, and the URLs follow the keys. *)
Theorem keys_are_filtered_matches (request : HttpRequest) w w'
    (urls keys : list string) :
  upload_images cfg request w = (Ok (matches_response urls keys), w') ->
  exists (evs : list Event) (img : bytes) (resp : SearchResponse) (ids : list string),
    events w' = events w ++ evs /\
    filter search_event evs = [E_search_faces_by_image img (Ok resp)] /\
    map Face_ExternalImageId (default [] (FaceMatches resp)) = map Some ids /\
    keys = filter (fun m => in_list m (batch_filenames cfg request)) ids /\
    keys `sublist_of` ids /\
    (forall k, k ∈ batch_filenames cfg request ->
               count_occ string_dec keys k = count_occ string_dec ids k) /\
    map fst (omap (retrieval_url cfg) evs) = keys /\
    map snd (omap (retrieval_url cfg) evs) = urls.
Proof.
  intros (evs & img & resp & ids & Hev & Hs & Hurls & Hlen & Hids & Hkeys)%upload_events_ok.
  exists evs, img, resp, ids. repeat split; auto.
  - rewrite Hkeys. apply sublist_filter.
  - intros k Hk. rewrite Hkeys.
    apply (count_occ_filter (fun m => in_list m (batch_filenames cfg request))).
    unfold in_list. now apply bool_decide_eq_true_2.
  - rewrite Hurls. change (map fst ?l) with (fst <$> l). now apply fst_zip; lia.
  - rewrite Hurls. change (map snd ?l) with (snd <$> l). now apply snd_zip; lia.
Qed.

(** When the request reaches its end, the upload folder is empty. *)
Lemma uploads_removed_at_end (request : HttpRequest) w w' (urls keys : list string) :
  upload_images cfg request w = (Ok (matches_response urls keys), w') ->
  os_listdir (UPLOAD_FOLDER cfg) w' = (Ok [], w').
Proof.
  intros (reference & r0 & evs_ix & img & resp & ids & rs & _ & _ & _ & _ & _
          & _ & _ & _ & _ & Hgone)%upload_images_ok.
  unfold os_listdir. f_equal. f_equal. apply omap_none.
  apply Forall_forall. intros p Hp. change (map fst ?l) with (fst <$> l) in Hp.
  apply list_elem_of_fmap in Hp as ([p' b] & -> & Hpb).
  apply elem_of_map_to_list in Hpb. simpl in *.
  destruct (entry_name (UPLOAD_FOLDER cfg) p') as [n|] eqn:E; [|reflexivity].
  rewrite (Hgone _ _ E) in Hpb. discriminate.
Qed.

(** ** Requests that end with an error *)

Lemma save_gallery_file_files (file : UploadedFile) w w' (r : result string) :
  save_gallery_file cfg file w = (r, w') ->
  files w' = <[os_path_join (UPLOAD_FOLDER cfg) (name file) := concat (chunks file)]>
               (files w).
Proof.
  unfold save_gallery_file, upload_to_s3, write_file, bind, read_file, call, ret.
  simpl. rewrite lookup_insert_eq.
  destruct (upload_file _ _ _) as [[[]|e] a']; now intros [= <- <-].
Qed.

Lemma save_gallery_keeps (gallery : list UploadedFile) w w'
    (r : result (list string)) (p : string) :
  mapM (save_gallery_file cfg) gallery w = (r, w') ->
  is_Some (files w !! p) -> is_Some (files w' !! p).
Proof.
  revert w r. induction gallery as [|f gallery IH]; intros w r; simpl.
  - now intros [= <- <-].
  - intros H Hp.
    assert (Hstep : forall r1 w1, save_gallery_file cfg f w = (r1, w1) ->
                                  is_Some (files w1 !! p)).
    { intros r1 w1 H1. rewrite (save_gallery_file_files _ _ _ _ H1).
      rewrite lookup_insert. now destruct (decide _). }
    apply bind_inv in H as [(x & w1 & H1 & H) | (e & H1 & ->)]; [|eauto].
    apply bind_inv in H as [(xs & w2 & H2 & [= <- <-]) | (e & H2 & ->)]; eauto.
Qed.

Lemma external_ids_world (l : list FaceMatch) w w' (r : result (list string)) :
  mapM external_image_id l w = (r, w') -> w' = w.
Proof.
  revert r. induction l as [|m l IH]; intros r; simpl.
  - now intros [= <- <-].
  - unfold bind at 1, external_image_id at 1.
    destruct (Face_ExternalImageId m); simpl; [|now intros [= <- <-]].
    unfold bind. destruct (mapM external_image_id l w) as [[xs|e] w1] eqn:E;
      intros [= <- <-]; eauto.
Qed.

(** Once the collection is there and the files are accepted, every way the
    request can raise is past the writing of the first gallery file and short
    of the sweep: that file is still in the upload folder. *)
Lemma failed_request_leaves_files (request : HttpRequest) w w1 w' (e : exn)
    (first : UploadedFile) (others : list UploadedFile) :
  method request = "POST" ->
  getlist "gallery_images" (FILES request) = first :: others ->
  file_truthy (get "reference_image" (FILES request)) = true ->
  ensure_collection_exists w = (Ok tt, w1) ->
  upload_images cfg request w = (Raise e, w') ->
  is_Some (files w' !! os_path_join (UPLOAD_FOLDER cfg) (name first)).
Proof.
  intros Hm Hg Href Hens. unfold upload_images.
  rewrite (bool_decide_eq_true_2 _ Hm). simpl.
  rewrite (bind_eq _ _ _ _ _ Hens). unfold missing_files. rewrite Hg, Href. simpl.
  destruct (get "reference_image" (FILES request)) as [reference|]; [|discriminate].
  set (p := os_path_join (UPLOAD_FOLDER cfg) (name first)).
  intros H.
  assert (Hfirst : forall r2 w2,
            mapM (save_gallery_file cfg) (first :: others) w1 = (r2, w2) ->
            is_Some (files w2 !! p)).
  { simpl. intros r2 w2 H2.
    apply bind_inv in H2 as [(x & wa & Ha & H2) | (e2 & Ha & ->)].
    - assert (Hp : is_Some (files wa !! p)).
      { rewrite (save_gallery_file_files _ _ _ _ Ha). unfold p.
        rewrite lookup_insert_eq. eauto. }
      apply bind_inv in H2 as [(xs & wb & Hb & [= <- <-]) | (e2 & Hb & ->)];
        eapply save_gallery_keeps; eauto.
    - rewrite (save_gallery_file_files _ _ _ _ Ha). unfold p.
      rewrite lookup_insert_eq. eauto. }
  apply bind_inv in H as [(paths & w2 & Hsave & H) | (e2 & Hsave & _)]; [|eauto].
  apply Hfirst in Hsave.
  apply bind_inv in H as [([] & w3 & [= <-] & H) | (e2 & [=] & _)].
  assert (H3 : is_Some (files (set_files
                 (insert (os_path_join (UPLOAD_FOLDER cfg) (name reference))
                         (concat (chunks reference))) w2) !! p)).
  { simpl. rewrite lookup_insert. now destruct (decide _). }
  revert H H3. generalize (set_files
                 (insert (os_path_join (UPLOAD_FOLDER cfg) (name reference))
                         (concat (chunks reference))) w2).
  intros w3 H H3.
  apply bind_inv in H as [([] & w4 & Hix & H) | (e2 & Hix & _)].
  2:{ apply index_faces_if_new_frame in Hix as (-> & _). exact H3. }
  apply index_faces_if_new_frame in Hix as (Hf4 & _).
  apply bind_inv in H as [(img & w5 & [-> _]%read_file_inv & H)
                         | (e2 & [-> _]%read_file_inv & _)];
    [|now rewrite Hf4].
  apply bind_inv in H as [(resp & w6 & [-> _]%call_inv & H) | (e2 & [-> _]%call_inv & _)];
    [|simpl; now rewrite Hf4].
  apply bind_inv in H as [(ids & w7 & ->%external_ids_world & H)
                         | (e2 & ->%external_ids_world & _)];
    [|simpl; now rewrite Hf4].
  exfalso.
  match type of H with bind (mapM _ ?ks) _ ?w0 = _ =>
    destruct (image_urls_spec ks w0) as (rs & w8 & Hurls & _) end.
  rewrite (bind_eq _ _ _ _ _ Hurls) in H.
  destruct (remove_uploads_spec w8) as (w9 & Hrm & _).
  rewrite (bind_eq _ _ _ _ _ Hrm) in H. discriminate.
Qed.

(** ** Requests that are turned down, and the cache file *)

(** C7 (amended). A POST without gallery files or without a reference file
    writes no local file and uploads nothing: its only call is the creation
    of the collection.  It is answered by the 400 response when that call
    returns or finds the collection; any other error of that call is raised
    instead. *)
Theorem missing_files_rejected (request : HttpRequest) w w' (r : result HttpResponse) :
  method request = "POST" ->
  missing_files (getlist "gallery_images" (FILES request))
                (get "reference_image" (FILES request)) = true ->
  upload_images cfg request w = (r, w') ->
  exists r0,
    create_collection (remote w) = (r0, remote w') /\
    events w' = events w ++ [E_create_collection r0] /\
    files w' = files w /\ cache_file w' = cache_file w /\
    r = match r0 with
        | Ok _ | Raise ResourceAlreadyExistsException =>
            Ok (error_response "Missing files")
        | Raise e => Raise e
        end.
Proof.
  intros Hm Hmiss. unfold upload_images.
  rewrite (bool_decide_eq_true_2 _ Hm). simpl.
  intros [([] & w1 & Hens & H) | (e & Hens & ->)]%bind_inv.
  - rewrite Hmiss in H. injection H as <- <-.
    apply ensure_collection_exists_inv in Hens as (r0 & Hc & He & Hf & Hcf & Hr).
    exists r0. repeat split; auto.
    destruct r0 as [|[]]; try discriminate; reflexivity.
  - apply ensure_collection_exists_inv in Hens as (r0 & Hc & He & Hf & Hcf & Hr).
    exists r0. repeat split; auto.
    destruct r0 as [|[]]; try discriminate; now injection Hr as ->.
Qed.

Lemma absent_cache_is_empty w :
  cache_file w = None -> load_cache w = (Ok (JObj []), w).
Proof. unfold load_cache. now intros ->. Qed.

Lemma unloadable_cache_stops_indexing (paths : list string) w (t : text) (e : exn) :
  cache_file w = Some t -> json_loads t = Raise e ->
  index_faces_if_new paths w = (Raise e, w).
Proof.
  intros Hc Hl. unfold index_faces_if_new.
  apply bind_raise. unfold load_cache. now rewrite Hc, Hl.
Qed.

(** The loop over the gallery makes uploads only and leaves the cache file
    alone, however it ends. *)
Lemma save_gallery_frame (gallery : list UploadedFile) w w' (r : result (list string)) :
  mapM (save_gallery_file cfg) gallery w = (r, w') ->
  cache_file w' = cache_file w /\
  exists evs, events w' = events w ++ evs /\ Forall upload_file_event evs.
Proof.
  revert w r. induction gallery as [|f gallery IH]; intros w r; simpl.
  - intros [= <- <-]. split; [reflexivity|]. exists []. now rewrite app_nil_r.
  - assert (Hstep : forall r1 w1, save_gallery_file cfg f w = (r1, w1) ->
              cache_file w1 = cache_file w /\
              exists ev, events w1 = events w ++ [ev] /\ upload_file_event ev).
    { intros r1 w1.
      unfold save_gallery_file, upload_to_s3, write_file, bind, read_file, call, ret.
      simpl. rewrite lookup_insert_eq.
      destruct (upload_file _ _ _) as [[[]|e] a']; intros [= <- <-]; simpl;
        (split; [reflexivity|]); eexists; (split; [reflexivity|]); exact I. }
    intros [(x & w1 & H1 & H) | (e & H1 & ->)]%bind_inv.
    + apply Hstep in H1 as (Hc1 & ev & He1 & Hev).
      assert (Hrest : exists r2, mapM (save_gallery_file cfg) gallery w1 = (r2, w')).
      { apply bind_inv in H as [(xs & w2 & H2 & [= <- <-]) | (e & H2 & ->)]; eauto. }
      destruct Hrest as (r2 & (Hc2 & evs & He2 & Hevs)%IH).
      split; [congruence|]. exists (ev :: evs).
      rewrite He2, He1, <- app_assoc. split; [reflexivity|]. now constructor.
    + apply Hstep in H1 as (Hc1 & ev & He1 & Hev).
      split; [exact Hc1|]. exists [ev]. split; [exact He1|]. now constructor.
Qed.

(** C6 (amended). When no cache file exists, [load_cache] returns the
    empty mapping.  A cache file that exists and does not load makes
    [load_cache] raise to its caller: the JSON decode error when its text is
    not valid JSON, and otherwise the error of the read itself, such as the
    Unicode decode error for bytes that are not text.  [index_faces_if_new]
    raises it in turn, before any call, and leaves the file as it is; so every
    upload request that carries its files fails, having made no call but the
    creation of the collection and uploads, and the cache file is still as it
    was. *)
Theorem corrupt_cache_raises w (t : text) (e : exn) :
  cache_file w = Some t ->
  json_loads t = Raise e ->
  (t = Not_json /\ e = JSONDecodeError \/ t = Unreadable e) /\
  load_cache w = (Raise e, w) /\
  (forall paths, index_faces_if_new paths w = (Raise e, w)) /\
  (forall request,
     method request = "POST" ->
     missing_files (getlist "gallery_images" (FILES request))
                   (get "reference_image" (FILES request)) = false ->
     exists e' w' evs,
       upload_images cfg request w = (Raise e', w') /\
       cache_file w' = cache_file w /\
       events w' = events w ++ evs /\
       Forall (fun ev => create_event ev || upload_file_event ev) evs) /\
  (forall w0, cache_file w0 = None -> load_cache w0 = (Ok (JObj []), w0)).
Proof.
  intros Hc Hl.
  split. { destruct t; try discriminate; injection Hl as <-; auto. }
  split. { unfold load_cache. now rewrite Hc, Hl. }
  split. { intros paths. now apply (unloadable_cache_stops_indexing _ _ t). }
  split; [|apply absent_cache_is_empty].
  intros request Hm Hmiss. unfold upload_images.
  rewrite (bool_decide_eq_true_2 _ Hm). simpl. rewrite Hmiss.
  destruct (ensure_collection_exists w) as [r1 w1] eqn:Hens.
  pose proof (ensure_collection_exists_inv _ _ _ Hens) as (r0 & _ & He1 & _ & Hc1 & _).
  unfold bind at 1. rewrite Hens.
  destruct r1 as [[]|e1].
  2:{ exists e1, w1, [E_create_collection r0]. repeat split; auto. }
  destruct (get "reference_image" (FILES request)) as [reference|] eqn:Href.
  2:{ unfold missing_files in Hmiss. simpl in Hmiss. rewrite orb_true_r in Hmiss.
      discriminate. }
  destruct (mapM (save_gallery_file cfg) (getlist "gallery_images" (FILES request)) w1)
    as [r2 w2] eqn:Hsave.
  pose proof (save_gallery_frame _ _ _ _ Hsave) as (Hc2 & evs & He2 & Hevs).
  assert (Hall : Forall (fun ev => create_event ev || upload_file_event ev)
                        (E_create_collection r0 :: evs)).
  { constructor; [exact I|]. eapply Forall_impl; [exact Hevs|].
    intros ev Hev. apply orb_True. now right. }
  unfold bind at 1. rewrite Hsave.
  destruct r2 as [paths|e2].
  2:{ exists e2, w2, (E_create_collection r0 :: evs).
      rewrite He2, He1, <- app_assoc. repeat split; auto. congruence. }
  unfold bind at 1, write_file.
  set (w3 := set_files _ w2).
  assert (Hc3 : cache_file w3 = Some t) by (unfold w3; simpl; congruence).
  rewrite (bind_raise _ _ _ _ _ (unloadable_cache_stops_indexing paths w3 t e Hc3 Hl)).
  exists e, w3, (E_create_collection r0 :: evs). unfold w3. simpl.
  rewrite He2, He1, <- app_assoc. repeat split; auto. congruence.
Qed.

(** ** The archive view *)

Lemma zip_name_no_nul (k : string) : zip_name (zip_name k) = zip_name k.
Proof.
  induction k as [|c k IH]; simpl; [reflexivity|].
  destruct (bool_decide (c = Ascii.zero)) eqn:E; simpl; [reflexivity|].
  now rewrite E, IH.
Qed.


Lemma writestr_entry (k : string) (content : bytes) (zf : list (string * bytes)) :
  match writestr k content zf with
  | Ok zf' => zf' = zf ++ [(zip_name k, content)] /\ kept_name k = true
  | Raise _ => kept_name k = false
  end.
Proof.
  unfold writestr, kept_name.
  destruct (bool_decide (zip_name k = "")); simpl; [reflexivity|].
  destruct (65535 <? _)%Z eqn:E.
  - apply Z.ltb_lt in E. apply Z.leb_gt. exact E.
  - apply Z.ltb_ge in E. split; [reflexivity|]. now apply Z.leb_le.
Qed.

Lemma omap_cons_app {X Y : Type} (f : X -> option Y) (x : X) (l : list X) :
  omap f (x :: l) = omap f [x] ++ omap f l.
Proof. simpl. now destruct (f x). Qed.

Lemma fetch_each_cons (key : JSON) (rest : list JSON) (a : aws) :
  fetch_each (key :: rest) a
  = let ra := match key with
              | JStr k => get_object k a
              | _ => (Raise ParamValidationError, a)
              end in
    ((key, fst ra) :: fst (fetch_each rest (snd ra)), snd (fetch_each rest (snd ra))).
Proof.
  simpl.
  destruct key; try destruct (get_object _ a); simpl;
    now destruct (fetch_each rest _).
Qed.

(** One turn of the loop never raises: a string key is asked for, and the
    archive gets the entry of a call that returned when the name is kept. *)
Lemma add_entry_spec (key : JSON) (zf : list (string * bytes)) w :
  let ra := match key with
            | JStr k => get_object k (remote w)
            | _ => (Raise ParamValidationError, remote w)
            end in
  exists w1,
    add_entry key zf w
    = (Ok (zf ++ omap archive_entry (omap fetched_key [(key, fst ra)])), w1) /\
    events w1 = events w ++ omap get_call [(key, fst ra)] /\
    remote w1 = snd ra /\ files w1 = files w /\ cache_file w1 = cache_file w.
Proof.
  assert (Hother : str_key key = None ->
            exists w1, add_entry key zf w
                       = (Ok (zf ++ omap archive_entry
                                      (omap fetched_key [(key, Raise ParamValidationError)])),
                          w1) /\
                       events w1 = events w ++ omap get_call
                                                  [(key, @Raise bytes ParamValidationError)] /\
                       remote w1 = remote w /\ files w1 = files w /\
                       cache_file w1 = cache_file w).
  { intros Hk. exists w.
    destruct key; try discriminate; simpl; rewrite !app_nil_r; auto. }
  destruct key; try (apply Hother; reflexivity). clear Hother. simpl.
  unfold add_entry, try_except, fetch, bind, call, ret, lift.
  destruct (get_object s (remote w)) as [[content|e] a'] eqn:Hg; simpl.
  - pose proof (writestr_entry s content zf) as Hw.
    unfold archive_entry. simpl.
    destruct (writestr s content zf) as [zf'|e].
    + destruct Hw as [-> ->]. eexists. split; [reflexivity|]. simpl. auto.
    + rewrite Hw. eexists. rewrite app_nil_r. split; [reflexivity|]. simpl. auto.
  - eexists. rewrite app_nil_r. split; [reflexivity|]. simpl. auto.
Qed.

(** The loop over the keys never raises: it fetches each key in turn, and
    the archive gets the entries of the fetches that went through. *)
Lemma archive_loop_spec (items : list JSON) (zf : list (string * bytes)) w :
  exists w',
    foldM add_entry items zf w
    = (Ok (zf ++ omap archive_entry
                   (omap fetched_key (fst (fetch_each items (remote w))))), w') /\
    events w' = events w ++ omap get_call (fst (fetch_each items (remote w))) /\
    remote w' = snd (fetch_each items (remote w)) /\
    files w' = files w /\ cache_file w' = cache_file w.
Proof.
  revert zf w. induction items as [|key items IH]; intros zf w.
  - exists w. simpl. now rewrite !app_nil_r.
  - pose proof (add_entry_spec key zf w) as H1. cbv zeta in H1.
    rewrite fetch_each_cons. cbv zeta.
    set (ra := match key with
               | JStr k => get_object k (remote w)
               | _ => (Raise ParamValidationError, remote w)
               end) in *.
    clearbody ra. destruct ra as [r a1]. cbn [fst snd] in *.
    destruct H1 as (w1 & H1 & He1 & Hr1 & Hf1 & Hc1).
    edestruct IH as (w' & Hrun & He & Hr & Hf & Hc).
    exists w'. simpl foldM. rewrite (bind_eq _ _ _ _ _ H1), Hrun. rewrite Hr1 in *.
    rewrite (omap_cons_app fetched_key (key, r) (fst (fetch_each items a1))),
      omap_app, (omap_cons_app get_call (key, r) (fst (fetch_each items a1))).
    rewrite He, He1, Hf, Hf1, Hc, Hc1, Hr, <- !app_assoc. auto.
Qed.

Lemma fetch_each_keys (items : list JSON) (a : aws) :
  map fst (fst (fetch_each items a)) = items.
Proof.
  revert a. induction items as [|key items IH]; intros a; [reflexivity|].
  rewrite fetch_each_cons. simpl. now rewrite IH.
Qed.

Lemma fetch_each_requested (items : list JSON) (a : aws) :
  map requested (omap get_call (fst (fetch_each items a)))
  = map Some (omap str_key items).
Proof.
  revert a. induction items as [|key items IH]; intros a; [reflexivity|].
  rewrite fetch_each_cons. cbv zeta. unfold fst at 1.
  destruct key; simpl; rewrite ?IH; reflexivity.
Qed.

(** The events of the loop, as far as the other views need them. *)
Lemma archive_loop_frame (items : list JSON) w :
  exists zf w' evs,
    foldM add_entry items [] w = (Ok zf, w') /\
    events w' = events w ++ evs /\
    map requested evs = map Some (omap str_key items) /\
    files w' = files w /\ cache_file w' = cache_file w.
Proof.
  destruct (archive_loop_spec items [] w) as (w' & Hrun & He & _ & Hf & Hc).
  eexists _, w', _. split; [exact Hrun|]. split; [exact He|].
  split; [apply fetch_each_requested|]. auto.
Qed.

Lemma fetched_keys_sublist (outcomes : list (JSON * result bytes)) :
  map (fun kc => JStr (fst kc)) (omap fetched_key outcomes)
  `sublist_of` map fst outcomes.
Proof.
  induction outcomes as [|[key r] outcomes IH]; simpl; [constructor|].
  destruct key; try (apply sublist_cons; exact IH).
  destruct r; simpl.
  - apply sublist_skip. exact IH.
  - apply sublist_cons. exact IH.
Qed.

Lemma archive_entries_kept (l : list (string * bytes)) :
  omap archive_entry l
  = map (fun kc => (zip_name (fst kc), snd kc))
        (filter (fun kc => kept_name (fst kc)) l).
Proof.
  induction l as [|kc l IH]; [reflexivity|].
  rewrite (omap_cons_app archive_entry kc l), IH. simpl. unfold archive_entry.
  destruct (kept_name (fst kc)) eqn:E.
  - rewrite filter_cons_True by (simpl; now rewrite E). reflexivity.
  - rewrite filter_cons_False by (simpl; now rewrite E). reflexivity.
Qed.


(** What the view does with a request that carries a non-empty list of
    keys. *)
Lemma download_zip_list (request : HttpRequest) (d : dict) (l : list JSON) w :
  method request = "POST" ->
  body request = Json_text (JObj d) ->
  dict_get d "keys" = Some (JArr l) ->
  l <> [] ->
  download_zip request w = bind (foldM add_entry l []) (fun zf => ret (zip_response zf)) w.
Proof.
  intros Hm Hb Hk Hl. unfold download_zip.
  rewrite (bool_decide_eq_true_2 _ Hm), Hb. simpl.
  unfold try_except, bind at 1 2 3, lift, ret. simpl. rewrite Hk. simpl.
  destruct l; [contradiction | reflexivity].
Qed.


(** C10. The entries of the archive are in the order of the keys: they
    are, one for one and in order, the entries of a subsequence of the
    successfully fetched keys - each named by its key up to the first NUL
    character and holding what was fetched - and the successfully fetched keys
    are themselves a subsequence of the list of keys of the request. *)
Theorem archive_keeps_order (request : HttpRequest) (d : dict) (l : list JSON) w w'
    (zf : list (string * bytes)) (content_type : string)
    (headers : list (string * string)) :
  body request = Json_text (JObj d) ->
  dict_get d "keys" = Some (JArr l) ->
  download_zip request w = (Ok (FileResponse zf content_type headers), w') ->
  exists kept : list (string * bytes),
    zf = map (fun kc => (zip_name (fst kc), snd kc)) kept /\
    kept `sublist_of` omap fetched_key (fst (fetch_each l (remote w))) /\
    map (fun kc => JStr (fst kc)) (omap fetched_key (fst (fetch_each l (remote w))))
    `sublist_of` l.
Proof.
  intros Hb Hk H.
  destruct (bool_decide (method request = "POST")) eqn:Hm.
  2:{ unfold download_zip in H. rewrite Hm in H. discriminate. }
  apply bool_decide_eq_true in Hm.
  destruct l as [|key l].
  { unfold download_zip in H. rewrite (bool_decide_eq_true_2 _ Hm), Hb in H.
    simpl in H. unfold try_except, bind, lift, ret in H. simpl in H.
    rewrite Hk in H. discriminate. }
  rewrite (download_zip_list _ _ _ _ Hm Hb Hk) in H by discriminate.
  destruct (archive_loop_spec (key :: l) [] w) as (w1 & Hrun & _).
  rewrite (bind_eq _ _ _ _ _ Hrun) in H. injection H as <- _ _ _.
  simpl app. rewrite archive_entries_kept.
  eexists. split; [reflexivity|]. split; [apply sublist_filter|].
  etransitivity; [apply fetched_keys_sublist|]. now rewrite fetch_each_keys.
Qed.
End Proofs.

Lemma index_failure_skips_file_witness :
  let w := world_ab ["index_faces a.jpg"] in
  is_image_name (os_path_basename pa) = true /\
  files w !! pa = Some (b_ "Alice") /\
  py_contains (MD5.hexdigest (b_ "Alice")) (JObj []) = Ok false /\
  exists w',
    index_one pa (JObj []) w = (Ok (JObj []), w') /\
    events w' = events w ++
      [E_index_faces "a.jpg" (Raise (ClientError "ProvisionedThroughputExceededException"));
       E_print_failed "a.jpg" (ClientError "ProvisionedThroughputExceededException")] /\
    files w' = files w /\ cache_file w' = cache_file w /\
    foldM index_one [pa; pb] (JObj []) w = foldM index_one [pb] (JObj []) w'.
Proof.
  intros w.
  assert (H1 : is_image_name (os_path_basename pa) = true) by reflexivity.
  assert (H2 : files w !! pa = Some (b_ "Alice")) by (vm_compute; reflexivity).
  assert (H3 : py_contains (MD5.hexdigest (b_ "Alice")) (JObj []) = Ok false)
    by reflexivity.
  assert (H4 : index_faces (os_path_basename pa) (remote w)
               = (Raise (ClientError "ProvisionedThroughputExceededException"), remote w))
    by (vm_compute; reflexivity).
  split; [exact H1|]. split; [exact H2|]. split; [exact H3|].
  exact (index_failure_skips_file pa [pb] (b_ "Alice") (JObj []) w _ _ H1 H2 H3 H4).
Defined.

Lemma duplicate_content_skipped_witness :
  let w := world_ab [] in
  (is_image_name (os_path_basename pa) = true /\
   is_image_name (os_path_basename pb) = true /\
   files w !! pa = Some (b_ "Alice") /\
   files w !! pb = Some (b_ "Alice") /\
   Forall (fun p => is_Some (files w !! p)) [] /\
   fst (index_faces (os_path_basename pa) (remote w)) = Ok tt) /\
  exists d1 w1 d2 w2,
    index_one pa (JObj []) w = (Ok (JObj d1), w1) /\
    dict_has d1 (MD5.hexdigest (b_ "Alice")) = true /\
    foldM index_one (pa :: []) (JObj []) w = (Ok (JObj d2), w2) /\
    dict_has d2 (MD5.hexdigest (b_ "Alice")) = true /\
    index_one pb (JObj d2) w2
    = (Ok (JObj d2), emit (E_print_skipping (os_path_basename pb)) w2) /\
    foldM index_one (pa :: [] ++ pb :: []) (JObj []) w
    = foldM index_one [] (JObj d2) (emit (E_print_skipping (os_path_basename pb)) w2).
Proof.
  intros w.
  assert (H1 : is_image_name (os_path_basename pa) = true) by reflexivity.
  assert (H2 : is_image_name (os_path_basename pb) = true) by reflexivity.
  assert (H3 : files w !! pa = Some (b_ "Alice")) by (vm_compute; reflexivity).
  assert (H4 : files w !! pb = Some (b_ "Alice")) by (vm_compute; reflexivity).
  assert (H5 : Forall (fun p => is_Some (files w !! p)) []) by constructor.
  assert (H6 : fst (index_faces (os_path_basename pa) (remote w)) = Ok tt)
    by (vm_compute; reflexivity).
  split; [auto 10|].
  exact (duplicate_content_skipped pa pb [] [] (b_ "Alice") [] w
           H1 H2 H3 H4 H5 (or_intror H6)).
Defined.

(** C3 as stated fails: in one upload of two files of the same content, the
    index call for the first raises, so nothing is recorded for it, and the
    call for the second is made; and when the first has no image extension it
    is never fingerprinted, and the call for the second is made as well. *)
Lemma duplicate_content_indexed_twice :
  let run1 := upload_images sim_cfg req_dup (world0 ["index_faces a.jpg"]) in
  let run2 := upload_images sim_cfg req_txt (world0 []) in
  map chunks (getlist "gallery_images" (FILES req_dup)) = [[b_ "Alice"]; [b_ "Alice"]] /\
  map name (getlist "gallery_images" (FILES req_dup)) = ["a.jpg"; "b.jpg"] /\
  filter index_event (events (snd run1))
  = [E_index_faces "a.jpg" (Raise (ClientError "ProvisionedThroughputExceededException"));
     E_print_failed "a.jpg" (ClientError "ProvisionedThroughputExceededException");
     E_index_faces "b.jpg" (Ok tt);
     E_print_indexed "b.jpg"] /\
  cache_file (snd run1)
  = Some (Json_text (JObj [(MD5.hexdigest (b_ "Alice"), JStr "b.jpg")])) /\
  map chunks (getlist "gallery_images" (FILES req_txt)) = [[b_ "Alice"]; [b_ "Alice"]] /\
  map name (getlist "gallery_images" (FILES req_txt)) = ["a.txt"; "b.jpg"] /\
  filter index_event (events (snd run2))
  = [E_index_faces "b.jpg" (Ok tt); E_print_indexed "b.jpg"].
Proof.
  repeat split; vm_compute; reflexivity.
Qed.

(** The cache is whatever [json.load] returned: on a list, the assignment
    of the new entry raises inside the [try], nothing is ever recorded, and
    both files are indexed. *)
Example list_cache_records_nothing :
  let run := index_faces_if_new [pa; pb] world_list_cache in
  fst run = Ok tt /\
  cache_file (snd run) = Some (Json_text (JArr [])) /\
  events (snd run)
  = [E_index_faces "a.jpg" (Ok tt); E_print_failed "a.jpg" TypeError;
     E_index_faces "b.jpg" (Ok tt); E_print_failed "b.jpg" TypeError].
Proof. repeat split; vm_compute; reflexivity. Qed.

Lemma keys_name_batch_files_witness :
  let run := upload_images sim_cfg req_new world_old in
  (Forall (fun file => has_sep (name file) = false)
          (getlist "gallery_images" (FILES req_new)) /\
   run = (Ok (matches_response ["https://signed.example/new.jpg"] ["new.jpg"]),
          snd run)) /\
  (forall k, k ∈ ["new.jpg"] ->
             k ∈ map name (getlist "gallery_images" (FILES req_new))) /\
  (forall u, u ∈ ["https://signed.example/new.jpg"] ->
     exists k r, k ∈ map name (getlist "gallery_images" (FILES req_new)) /\
                 u = url_of sim_cfg k r).
Proof.
  intros run.
  assert (H1 : Forall (fun file => has_sep (name file) = false)
                      (getlist "gallery_images" (FILES req_new)))
    by (repeat constructor).
  assert (H2 : run = (Ok (matches_response ["https://signed.example/new.jpg"]
                            ["new.jpg"]), snd run))
    by (vm_compute; reflexivity).
  split; [auto|].
  exact (keys_name_batch_files sim_cfg req_new world_old (snd run) _ _ H1 H2).
Defined.

(** The search of [req_new] is global: it returns [old.jpg], indexed by the
    earlier request, and the response leaves it out. *)
Example earlier_request_left_out :
  let run := upload_images sim_cfg req_new world_old in
  filter search_event (events (snd run))
  = [E_search_faces_by_image (b_ "A?")
       (Ok {| FaceMatches := Some [ {| Face_ExternalImageId := Some "old.jpg" |} ] |});
     E_search_faces_by_image (b_ "A?")
       (Ok {| FaceMatches := Some [ {| Face_ExternalImageId := Some "old.jpg" |};
                                    {| Face_ExternalImageId := Some "new.jpg" |} ] |})]
  /\ fst run = Ok (matches_response ["https://signed.example/new.jpg"] ["new.jpg"]).
Proof. split; vm_compute; reflexivity. Qed.

Lemma urls_match_keys_witness :
  let run := upload_images sim_cfg req_old_again
               (@Build_World SimAws (files world_old) (cache_file world_old)
                  {| bucket := bucket (remote world_old); collection_exists := true;
                     faces := faces (remote world_old);
                     faults := ["generate_presigned_url"] |}
                  (events world_old)) in
  let urls := ["https://faces.s3.eu-west-1.amazonaws.com/old.jpg";
               "https://faces.s3.eu-west-1.amazonaws.com/old.jpg";
               "https://faces.s3.eu-west-1.amazonaws.com/new.jpg"] in
  let keys := ["old.jpg"; "old.jpg"; "new.jpg"] in
  run = (Ok (matches_response urls keys), snd run) /\
  length urls = length keys /\
  exists evs, events (snd run) = events world_old ++ evs /\
              omap (retrieval_url sim_cfg) evs = zip keys urls.
Proof.
  intros run urls keys.
  assert (H : run = (Ok (matches_response urls keys), snd run))
    by (vm_compute; reflexivity).
  split; [exact H|].
  exact (urls_match_keys sim_cfg req_old_again _ (snd run) urls keys H).
Defined.

Lemma keys_are_filtered_matches_witness :
  let run := upload_images sim_cfg req_old_again world_old in
  let urls := ["https://signed.example/old.jpg"; "https://signed.example/old.jpg";
               "https://signed.example/new.jpg"] in
  let keys := ["old.jpg"; "old.jpg"; "new.jpg"] in
  run = (Ok (matches_response urls keys), snd run) /\
  exists (evs : list Event) (img : bytes) (resp : SearchResponse) (ids : list string),
    events (snd run) = events world_old ++ evs /\
    filter search_event evs = [E_search_faces_by_image img (Ok resp)] /\
    map Face_ExternalImageId (default [] (FaceMatches resp)) = map Some ids /\
    keys = filter (fun m => in_list m (batch_filenames sim_cfg req_old_again)) ids /\
    keys `sublist_of` ids /\
    (forall k, k ∈ batch_filenames sim_cfg req_old_again ->
               count_occ string_dec keys k = count_occ string_dec ids k) /\
    map fst (omap (retrieval_url sim_cfg) evs) = keys /\
    map snd (omap (retrieval_url sim_cfg) evs) = urls.
Proof.
  intros run urls keys.
  assert (H : run = (Ok (matches_response urls keys), snd run))
    by (vm_compute; reflexivity).
  split; [exact H|].
  exact (keys_are_filtered_matches sim_cfg req_old_again world_old (snd run) urls keys H).
Defined.

(** The identifier [old.jpg] comes back twice from the search, and twice in
    the response. *)
Example repeated_identifier_kept :
  let run := upload_images sim_cfg req_old_again world_old in
  fst run = Ok (matches_response
                  ["https://signed.example/old.jpg"; "https://signed.example/old.jpg";
                   "https://signed.example/new.jpg"]
                  ["old.jpg"; "old.jpg"; "new.jpg"]) /\
  last (filter search_event (events (snd run)))
  = Some (E_search_faces_by_image (b_ "A?")
            (Ok {| FaceMatches :=
                     Some [ {| Face_ExternalImageId := Some "old.jpg" |};
                            {| Face_ExternalImageId := Some "old.jpg" |};
                            {| Face_ExternalImageId := Some "new.jpg" |} ] |})).
Proof. split; vm_compute; reflexivity. Qed.

(** C4 fails on the code: when the search raises (here, a reference image
    in which the service finds no face), the request ends with that error and
    the four files it saved are still in the upload folder; when an upload to
    the bucket raises, the files saved so far stay as well. *)
Theorem uploads_left_after_error :
  let run1 := upload_images sim_cfg req_abc (world0 ["search_faces_by_image"]) in
  let run2 := upload_images sim_cfg req_abc (world0 ["upload_file b.jpg"]) in
  fst run1 = Raise (ClientError "InvalidParameterException") /\
  fst (os_listdir (UPLOAD_FOLDER sim_cfg) (snd run1))
  = Ok ["c.PNG"; "a.jpg"; "ref.jpg"; "b.jpg"] /\
  fst run2 = Raise S3UploadFailedError /\
  fst (os_listdir (UPLOAD_FOLDER sim_cfg) (snd run2)) = Ok ["a.jpg"; "b.jpg"].
Proof. repeat split; vm_compute; reflexivity. Qed.

(** A presign call that raises is no such error: the fallback URL is used
    and the folder is swept. *)
Example uploads_removed_after_presign_error :
  let run := upload_images sim_cfg req_abc (world0 ["generate_presigned_url"]) in
  fst run = Ok (matches_response ["https://faces.s3.eu-west-1.amazonaws.com/a.jpg"]
                                 ["a.jpg"]) /\
  fst (os_listdir (UPLOAD_FOLDER sim_cfg) (snd run)) = Ok [].
Proof. split; vm_compute; reflexivity. Qed.

Lemma missing_files_rejected_witness :
  let run := upload_images sim_cfg req_no_reference (world0 []) in
  (method req_no_reference = "POST" /\
   missing_files (getlist "gallery_images" (FILES req_no_reference))
                 (get "reference_image" (FILES req_no_reference)) = true /\
   run = (Ok (error_response "Missing files"), snd run)) /\
  exists r0,
    create_collection (remote (world0 [])) = (r0, remote (snd run)) /\
    events (snd run) = events (world0 []) ++ [E_create_collection r0] /\
    files (snd run) = files (world0 []) /\
    cache_file (snd run) = cache_file (world0 []) /\
    Ok (error_response "Missing files")
    = match r0 with
      | Ok _ | Raise ResourceAlreadyExistsException =>
          Ok (error_response "Missing files")
      | Raise e => Raise e
      end.
Proof.
  intros run.
  assert (H1 : method req_no_reference = "POST") by reflexivity.
  assert (H2 : missing_files (getlist "gallery_images" (FILES req_no_reference))
                 (get "reference_image" (FILES req_no_reference)) = true)
    by reflexivity.
  assert (H3 : run = (Ok (error_response "Missing files"), snd run))
    by (vm_compute; reflexivity).
  split; [auto|].
  exact (missing_files_rejected sim_cfg req_no_reference (world0 []) (snd run) _ H1 H2 H3).
Defined.

(** C7 as stated fails: the collection is created before the files are
    looked at, and when that call is refused the request ends with its error,
    not with the 400 response. *)
Lemma missing_files_not_always_400 :
  let run := upload_images sim_cfg req_no_reference (world0 ["create_collection"]) in
  method req_no_reference = "POST" /\
  get "reference_image" (FILES req_no_reference) = None /\
  fst run = Raise (ClientError "AccessDeniedException").
Proof. repeat split; vm_compute; reflexivity. Qed.

Lemma corrupt_cache_raises_witness :
  let w := world_corrupt in
  (cache_file w = Some Not_json /\ json_loads Not_json = Raise JSONDecodeError) /\
  load_cache w = (Raise JSONDecodeError, w) /\
  (forall paths, index_faces_if_new paths w = (Raise JSONDecodeError, w)) /\
  (forall request,
     method request = "POST" ->
     missing_files (getlist "gallery_images" (FILES request))
                   (get "reference_image" (FILES request)) = false ->
     exists e' w' evs,
       upload_images sim_cfg request w = (Raise e', w') /\
       cache_file w' = cache_file w /\
       events w' = events w ++ evs /\
       Forall (fun ev => create_event ev || upload_file_event ev) evs).
Proof.
  intros w.
  assert (H1 : cache_file w = Some Not_json) by reflexivity.
  assert (H2 : json_loads Not_json = Raise JSONDecodeError) by reflexivity.
  split; [auto|].
  destruct (corrupt_cache_raises sim_cfg w Not_json JSONDecodeError H1 H2)
    as (_ & Hload & Hindex & Hupload & _).
  auto.
Defined.

(** C6 as stated fails: with a cache file that is not valid JSON,
    [load_cache] does not return the empty mapping, and an upload that
    reaches the indexing ends with the decode error. *)
Lemma corrupt_cache_not_empty :
  cache_file world_corrupt = Some Not_json /\
  fst (load_cache world_corrupt) = Raise JSONDecodeError /\
  fst (load_cache world_corrupt) <> Ok (JObj []) /\
  fst (upload_images sim_cfg req_abc world_corrupt) = Raise JSONDecodeError.
Proof.
  split; [reflexivity|]. split; [reflexivity|]. split; [discriminate|].
  vm_compute. reflexivity.
Qed.

(** A cache file whose bytes are not text: the error is that of the
    decoding, and the upload ends with it after its three uploads. *)
Example undecodable_cache_raises :
  let run := upload_images sim_cfg req_abc world_undecodable in
  fst (load_cache world_undecodable) = Raise UnicodeDecodeError /\
  fst run = Raise UnicodeDecodeError /\
  cache_file (snd run) = Some (Unreadable UnicodeDecodeError) /\
  events (snd run)
  = [E_create_collection (Ok tt);
     E_upload_file "/srv/app/uploads/a.jpg" "a.jpg" (Ok tt);
     E_upload_file "/srv/app/uploads/b.jpg" "b.jpg" (Ok tt);
     E_upload_file "/srv/app/uploads/c.PNG" "c.PNG" (Ok tt)].
Proof. repeat split; vm_compute; reflexivity. Qed.


(** One key of three is not in the bucket: two entries, no error. *)
Example archive_of_c_gone_a :
  let run := download_zip (zip_request keys_c_gone_a) world_bucket in
  fst (fetch_each keys_c_gone_a (remote world_bucket))
  = [(JStr "c.PNG", Ok (b_ "Carol"));
     (JStr "gone.jpg", Raise (ClientError "NoSuchKey"));
     (JStr "a.jpg", Ok (b_ "Alice"))] /\
  fst run = Ok (zip_response [("c.PNG", b_ "Carol"); ("a.jpg", b_ "Alice")]) /\
  events (snd run)
  = [E_get_object "c.PNG" (Ok (b_ "Carol"));
     E_get_object "gone.jpg" (Raise (ClientError "NoSuchKey"));
     E_get_object "a.jpg" (Ok (b_ "Alice"))].
Proof. repeat split; vm_compute; reflexivity. Qed.


(** A name of 65536 characters does not fit the header of an entry. *)
Example long_name_refused :
  let k := string_of_list_ascii (repeat "k"%char (Z.to_nat 65536)) in
  writestr k (b_ "data") [] = Raise struct_error /\
  kept_name k = false /\ archive_entry (k, b_ "data") = None.
Proof. repeat split; vm_compute; reflexivity. Qed.

Lemma archive_keeps_order_witness :
  let keys := [JStr "a.jpg"; JStr key_nul; JStr "gone.jpg"; JStr nul_first] in
  let request := zip_request keys in
  let run := download_zip request world_nul in
  let zf := [("a.jpg", b_ "Alice"); ("x", b_ "Xavier")] in
  (body request = Json_text (JObj [("keys", JArr keys)]) /\
   dict_get [("keys", JArr keys)] "keys" = Some (JArr keys) /\
   run = (Ok (FileResponse zf "application/zip"
                [("Content-Disposition", "attachment; filename=matches.zip")]),
          snd run)) /\
  exists kept : list (string * bytes),
    zf = map (fun kc => (zip_name (fst kc), snd kc)) kept /\
    kept `sublist_of` omap fetched_key (fst (fetch_each keys (remote world_nul))) /\
    map (fun kc => JStr (fst kc)) (omap fetched_key (fst (fetch_each keys (remote world_nul))))
    `sublist_of` keys.
Proof.
  intros keys request run zf.
  assert (H1 : body request = Json_text (JObj [("keys", JArr keys)])) by reflexivity.
  assert (H2 : dict_get [("keys", JArr keys)] "keys" = Some (JArr keys)) by reflexivity.
  assert (H3 : run = (Ok (FileResponse zf "application/zip"
                            [("Content-Disposition", "attachment; filename=matches.zip")]),
                      snd run))
    by (vm_compute; reflexivity).
  split; [auto|].
  exact (archive_keeps_order request _ _ world_nul (snd run) zf _ _ H1 H2 H3).
Defined.

(** * Further properties of the views *)

(** ** The indexing *)

Lemma dict_get_set (d : dict) (k k' : string) (v : JSON) :
  dict_get (dict_set d k v) k'
  = if bool_decide (k = k') then Some v else dict_get d k'.
Proof.
  induction d as [|[k0 v0] d IH]; simpl.
  - reflexivity.
  - destruct (bool_decide (k0 = k)) eqn:E; simpl.
    + apply bool_decide_eq_true in E. subst k0.
      now destruct (bool_decide (k = k')).
    + rewrite IH. destruct (bool_decide (k0 = k')) eqn:E'; [|reflexivity].
      apply bool_decide_eq_true in E'. apply bool_decide_eq_false in E.
      destruct (bool_decide (k = k')) eqn:E2; [|reflexivity].
      apply bool_decide_eq_true in E2. congruence.
Qed.

Lemma dict_has_get (d : dict) (k : string) :
  dict_has d k = false -> dict_get d k = None.
Proof. unfold dict_has. now destruct (dict_get d k). Qed.

(** ** The fingerprint *)

Lemma le_bytes_length (n : nat) (x : Z) : length (MD5.le_bytes n x) = n.
Proof. revert x. induction n as [|n IH]; intros x; simpl; [reflexivity | now rewrite IH]. Qed.

Lemma le_bytes_range (n : nat) (x : Z) :
  Forall (fun b => (0 <= b < 256)%Z) (MD5.le_bytes n x).
Proof.
  revert x. induction n as [|n IH]; intros x; simpl; constructor; auto.
  apply Z.mod_pos_bound. lia.
Qed.

Lemma digest_shape (msg : bytes) :
  length (MD5.digest msg) = 16 /\ Forall (fun b => (0 <= b < 256)%Z) (MD5.digest msg).
Proof.
  unfold MD5.digest.
  destruct (MD5.blocks _ _ _) as [[[a b] c] d0].
  split.
  - now rewrite !length_app, !le_bytes_length.
  - repeat apply Forall_app_2; apply le_bytes_range.
Qed.

Lemma hex_digit_lower (d : Z) : (0 <= d < 16)%Z -> is_hex_lower (MD5.hex_digit d) = true.
Proof.
  intros H.
  assert (Hd : (d = 0 \/ d = 1 \/ d = 2 \/ d = 3 \/ d = 4 \/ d = 5 \/ d = 6 \/ d = 7 \/
                d = 8 \/ d = 9 \/ d = 10 \/ d = 11 \/ d = 12 \/ d = 13 \/ d = 14 \/
                d = 15)%Z) by lia.
  repeat (destruct Hd as [->|Hd]; [reflexivity|]). subst d. reflexivity.
Qed.

Lemma hex_shape (bs : list Z) :
  Forall (fun b => (0 <= b < 256)%Z) bs ->
  String.length (MD5.hex bs) = 2 * length bs /\
  forallb is_hex_lower (list_ascii_of_string (MD5.hex bs)) = true.
Proof.
  induction 1 as [|b bs Hb _ [IH1 IH2]]; simpl; [auto|].
  split; [rewrite IH1; lia|].
  rewrite IH2, !hex_digit_lower; [reflexivity| |].
  - apply Z.mod_pos_bound. lia.
  - split; [apply Z.div_pos; lia | apply Z.div_lt_upper_bound; lia].
Qed.

Section More.
Context {A : AwsModel}.
Variable cfg : Config.

Implicit Types (w : World) (d : dict).

(** A turn of the loop on a dict: nothing happens to the dict, or the file
    is a new image whose index call returned and the dict gets its entry. *)
Lemma index_one_entry (path : string) d w w' (c' : JSON) :
  index_one path (JObj d) w = (Ok c', w') ->
  c' = JObj d \/
  exists content a',
    files w !! path = Some content /\
    is_image_name (os_path_basename path) = true /\
    dict_has d (MD5.hexdigest content) = false /\
    index_faces (os_path_basename path) (remote w) = (Ok tt, a') /\
    c' = JObj (dict_set d (MD5.hexdigest content) (JStr (os_path_basename path))) /\
    w' = emit (E_print_indexed (os_path_basename path))
           (emit (E_index_faces (os_path_basename path) (Ok tt)) (set_remote a' w)).
Proof.
  unfold index_one. destruct (is_image_name _) eqn:Himg; simpl.
  2:{ intros [= <- <-]. auto. }
  unfold file_hash, bind, read_file, lift, ret.
  destruct (files w !! path) as [content|] eqn:Ef; [|discriminate].
  simpl. destruct (dict_has d _) eqn:Hin.
  - unfold print. intros [= <- <-]. auto.
  - unfold try_except, bind, call, print, ret.
    destruct (index_faces _ _) as [[[]|e] a'] eqn:E; simpl.
    + intros [= <- <-]. right. exists content, a'. auto 10.
    + intros [= <- <-]. auto.
Qed.

(** The loop on a dict: the entries it had stay as they were, and each
    entry it gained is the fingerprint of an image of the list under the base
    name of its path, after an index call for that name that returned. *)
Lemma index_loop_entries (paths : list string) d w w' (c' : JSON) :
  foldM index_one paths (JObj d) w = (Ok c', w') ->
  exists d' evs,
    c' = JObj d' /\ events w' = events w ++ evs /\
    (forall k v, dict_get d k = Some v -> dict_get d' k = Some v) /\
    (forall k v, dict_get d' k = Some v ->
       dict_get d k = Some v \/
       exists p content,
         p ∈ paths /\ files w !! p = Some content /\
         is_image_name (os_path_basename p) = true /\
         k = MD5.hexdigest content /\ v = JStr (os_path_basename p) /\
         E_index_faces (os_path_basename p) (Ok tt) ∈ evs).
Proof.
  revert d w. induction paths as [|p paths IH]; intros d w; simpl.
  - intros [= <- <-]. exists d, []. rewrite app_nil_r. auto.
  - intros (c1 & w1 & H1 & H)%bind_ok.
    pose proof (index_one_frame _ _ _ _ _ H1) as (Hf1 & _ & evs1 & He1 & _).
    apply index_one_entry in H1 as [-> | (content & a' & Hc & Himg & Hin & Hix & -> & ->)].
    + apply IH in H as (d' & evs2 & -> & He2 & Hold & Hnew).
      exists d', (evs1 ++ evs2). rewrite He2, He1, app_assoc.
      repeat split; auto. intros k v Hk.
      destruct (Hnew k v Hk) as [?|(q & c & Hq & Hfq & Hi & -> & -> & Hev)]; [auto|].
      right. exists q, c. rewrite Hf1 in Hfq. repeat split; auto.
      * now right.
      * apply elem_of_app. now right.
    + apply IH in H as (d' & evs2 & -> & He2 & Hold & Hnew).
      simpl in He2. exists d', (evs1 ++ evs2).
      assert (Hevs1 : evs1 = [E_index_faces (os_path_basename p) (Ok tt);
                              E_print_indexed (os_path_basename p)]).
      { simpl in He1. rewrite <- app_assoc in He1. now apply app_inv_head in He1. }
      split; [reflexivity|]. split.
      { rewrite He2, Hevs1, <- !app_assoc. reflexivity. }
      split.
      * intros k v Hk. apply Hold. rewrite dict_get_set.
        destruct (bool_decide (_ = k)) eqn:E; [|exact Hk].
        apply bool_decide_eq_true in E. subst k.
        rewrite (dict_has_get _ _ Hin) in Hk. discriminate.
      * intros k v Hk.
        destruct (Hnew k v Hk) as [Hk1|(q & c & Hq & Hfq & Hi & -> & -> & Hev)].
        -- rewrite dict_get_set in Hk1.
           destruct (bool_decide (_ = k)) eqn:E; [|auto].
           apply bool_decide_eq_true in E. subst k. injection Hk1 as <-.
           right. exists p, content. repeat split; auto; [left|].
           rewrite Hevs1. left.
        -- right. exists q, c. simpl in Hfq. repeat split; auto.
           ++ now right.
           ++ apply elem_of_app. now right.
Qed.

(** X1. When the loaded cache is a dict and [index_faces_if_new] returns,
    the cache file holds a dict in which every entry that was loaded is
    unchanged, and every other entry maps the fingerprint of an image of the
    list to the base name of its path, recorded after an index call for that
    name that returned during this run. *)
Theorem saved_cache_extends_loaded (paths : list string) d w w' :
  load_cache w = (Ok (JObj d), w) ->
  index_faces_if_new paths w = (Ok tt, w') ->
  exists d' evs,
    cache_file w' = Some (Json_text (JObj d')) /\
    events w' = events w ++ evs /\
    (forall k v, dict_get d k = Some v -> dict_get d' k = Some v) /\
    (forall k v, dict_get d' k = Some v ->
       dict_get d k = Some v \/
       exists p content,
         p ∈ paths /\ files w !! p = Some content /\
         is_image_name (os_path_basename p) = true /\
         k = MD5.hexdigest content /\ v = JStr (os_path_basename p) /\
         E_index_faces (os_path_basename p) (Ok tt) ∈ evs).
Proof.
  intros Hload. unfold index_faces_if_new. rewrite (bind_eq _ _ _ _ _ Hload).
  intros (c' & w1 & Hloop & [= <-])%bind_ok.
  apply index_loop_entries in Hloop as (d' & evs & -> & He & Hold & Hnew).
  exists d', evs. simpl. auto.
Qed.

Lemma index_one_calls (path : string) (cache : JSON) w w' (r : result JSON) :
  index_one path cache w = (r, w') ->
  exists evs,
    events w' = events w ++ evs /\
    (forall n r0, E_index_faces n r0 ∈ evs ->
       n = os_path_basename path /\ is_image_name n = true) /\
    length (filter index_call evs)
    <= (if is_image_name (os_path_basename path) then 1 else 0).
Proof.
  assert (Hnil : forall k, exists evs : list Event,
            events w = events w ++ evs /\
            (forall n r0, E_index_faces n r0 ∈ evs ->
               n = os_path_basename path /\ is_image_name n = true) /\
            length (filter index_call evs) <= k).
  { intros k. exists []. rewrite app_nil_r. split; [reflexivity|].
    split; [|simpl; lia]. intros n r0 Hn. now apply not_elem_of_nil in Hn. }
  unfold index_one. destruct (is_image_name _) eqn:Himg; simpl.
  2:{ intros [= <- <-]. apply Hnil. }
  unfold file_hash, bind, read_file, lift, ret.
  destruct (files w !! path) as [content|].
  2:{ intros [= <- <-]. apply Hnil. }
  destruct (py_contains _ cache) as [[|]|e].
  - unfold print. intros [= <- <-]. eexists [_]. simpl.
    split; [reflexivity|]. split; [|simpl; lia].
    intros n r0 [=]%list_elem_of_singleton.
  - assert (Hcall : forall r1 ev,
              index_call ev = false ->
              (forall n r0, E_index_faces n r0 ∈
                              [E_index_faces (os_path_basename path) r1; ev] ->
                 n = os_path_basename path /\ is_image_name n = true) /\
              length (filter index_call
                        [E_index_faces (os_path_basename path) r1; ev]) <= 1).
    { intros r1 ev Hev. split.
      - intros n r0 [[= -> _]|Hn%list_elem_of_singleton]%elem_of_cons; [auto|].
        subst ev. discriminate.
      - rewrite filter_cons. simpl. rewrite filter_cons.
        destruct (decide (index_call ev)) as [Hx|_]; [|simpl; lia].
        rewrite Hev in Hx. contradiction. }
    unfold try_except, bind, call, print, ret.
    destruct (index_faces _ _) as [[[]|e] a'].
    + destruct (py_setitem _ _ _) as [c1|e]; intros [= <- <-]; simpl;
        eexists [_; _]; rewrite <- !app_assoc; simpl; (split; [reflexivity|]);
        now apply Hcall.
    + intros [= <- <-]; simpl.
      eexists [_; _]; rewrite <- !app_assoc; simpl; (split; [reflexivity|]);
        now apply Hcall.
  - intros [= <- <-]. apply Hnil.
Qed.

Lemma index_loop_calls (paths : list string) (cache : JSON) w w' (r : result JSON) :
  foldM index_one paths cache w = (r, w') ->
  exists evs,
    events w' = events w ++ evs /\
    (forall n r0, E_index_faces n r0 ∈ evs ->
       is_image_name n = true /\ n ∈ map os_path_basename paths) /\
    length (filter index_call evs) <= length (image_paths paths).
Proof.
  revert cache w. induction paths as [|p paths IH]; intros cache w; simpl.
  - intros [= <- <-]. exists []. rewrite app_nil_r. split; [reflexivity|].
    split; [|simpl; lia]. intros n r0 Hn. now apply not_elem_of_nil in Hn.
  - assert (Hlen : forall k, k <= (if is_image_name (os_path_basename p) then 1 else 0) ->
                     forall m, m <= length (image_paths paths) ->
                     k + m <= length (image_paths (p :: paths))).
    { intros k Hk m Hm. unfold image_paths in *. rewrite filter_cons.
      destruct (is_image_name (os_path_basename p)); simpl; lia. }
    intros [(c1 & w1 & H1 & H) | (e & H1 & ->)]%bind_inv.
    + apply index_one_calls in H1 as (evs1 & He1 & Hn1 & Hl1).
      apply IH in H as (evs2 & He2 & Hn2 & Hl2).
      exists (evs1 ++ evs2). rewrite He2, He1, app_assoc. split; [reflexivity|]. split.
      * intros n r0 [Hn|Hn]%elem_of_app.
        -- destruct (Hn1 _ _ Hn) as [-> ?]. split; [assumption | left].
        -- destruct (Hn2 _ _ Hn). split; [assumption | now right].
      * rewrite filter_app, length_app. now apply Hlen.
    + apply index_one_calls in H1 as (evs1 & He1 & Hn1 & Hl1).
      exists evs1. split; [assumption|]. split.
      * intros n r0 Hn. destruct (Hn1 _ _ Hn) as [-> ?]. split; [assumption | left].
      * specialize (Hlen _ Hl1 0 ltac:(lia)). lia.
Qed.

Lemma index_faces_if_new_calls (paths : list string) w w' (r : result unit) :
  index_faces_if_new paths w = (r, w') ->
  exists evs,
    events w' = events w ++ evs /\
    index_calls_within (map os_path_basename paths) evs /\
    length (filter index_call evs) <= length (image_paths paths).
Proof.
  intros H.
  pose proof (index_faces_if_new_frame _ _ _ _ H) as (_ & evs & He & Hix).
  exists evs. split; [exact He|].
  unfold index_faces_if_new in H.
  assert (Hnil : evs = [] ->
            index_calls_within (map os_path_basename paths) evs /\
            length (filter index_call evs) <= length (image_paths paths)).
  { intros ->. split; [split; [constructor|]|simpl; lia].
    intros n r0 Hn. now apply not_elem_of_nil in Hn. }
  apply bind_inv in H as [(c & w1 & H1 & H) | (e & H1 & ->)].
  - assert (w1 = w) as ->.
    { unfold load_cache in H1. destruct (cache_file w); now injection H1. }
    assert (Hloop : exists r2 w2, foldM index_one paths c w = (r2, w2)
                                  /\ events w' = events w2).
    { apply bind_inv in H as [(c' & w2 & H2 & H) | (e & H2 & ->)]; [|eauto].
      unfold save_cache in H. injection H as <- <-. eauto. }
    destruct Hloop as (r2 & w2 & H2 & Hev).
    apply index_loop_calls in H2 as (evs2 & He2 & Hn2 & Hl2).
    assert (evs = evs2) as ->; [|unfold index_calls_within; auto].
    rewrite Hev, He2 in He. now apply app_inv_head in He.
  - assert (w' = w) as ->.
    { unfold load_cache in H1. destruct (cache_file w); now injection H1. }
    apply Hnil. rewrite <- (app_nil_r (events w)) in He at 1.
    now apply app_inv_head in He.
Qed.

(** X2. Whatever the outcome, [index_faces_if_new] calls the index service
    only for names with an image extension that are base names of the paths
    it was given, and at most once for each image path: nothing is retried
    and a file without image extension is never indexed. *)
Theorem index_calls_only_for_images (paths : list string) w :
  exists evs,
    events (snd (index_faces_if_new paths w)) = events w ++ evs /\
    Forall index_event evs /\
    (forall n r0, E_index_faces n r0 ∈ evs ->
       is_image_name n = true /\ n ∈ map os_path_basename paths) /\
    length (filter index_call evs) <= length (image_paths paths).
Proof.
  destruct (index_faces_if_new paths w) as [r w'] eqn:H. simpl.
  apply index_faces_if_new_calls in H as (evs & He & [Hix Hn] & Hlen).
  exists evs. auto.
Qed.

(** X3. When [index_faces_if_new] raises, the cache file is as it was
    before the call: the entries recorded in memory during the run, for files
    already indexed remotely, are not persisted. *)
Theorem failed_indexing_keeps_cache_file (paths : list string) w (e : exn) :
  fst (index_faces_if_new paths w) = Raise e ->
  cache_file (snd (index_faces_if_new paths w)) = cache_file w.
Proof.
  destruct (index_faces_if_new paths w) as [r w'] eqn:H. simpl. intros ->.
  unfold index_faces_if_new in H.
  apply bind_inv in H as [(c & w1 & H1 & H) | (e1 & H1 & _)].
  - assert (w1 = w) as ->.
    { unfold load_cache in H1. destruct (cache_file w); now injection H1. }
    apply bind_inv in H as [(c' & w2 & H2 & H) | (e2 & H2 & _)].
    + unfold save_cache in H. discriminate.
    + now apply index_loop_frame in H2 as (_ & Hc & _).
  - assert (w' = w) as ->; [|reflexivity].
    unfold load_cache in H1. destruct (cache_file w); now injection H1.
Qed.

(** The loop on a dict that has the fingerprint of every image of the list:
    one line per image, no call, the dict as it was. *)
Lemma index_loop_all_seen (paths : list string) d w :
  (forall p, p ∈ paths -> is_image_name (os_path_basename p) = true ->
     exists content, files w !! p = Some content /\
                     dict_has d (MD5.hexdigest content) = true) ->
  exists w',
    foldM index_one paths (JObj d) w = (Ok (JObj d), w') /\
    events w' = events w
                ++ map (fun p => E_print_skipping (os_path_basename p)) (image_paths paths) /\
    remote w' = remote w /\ files w' = files w /\ cache_file w' = cache_file w.
Proof.
  revert w. induction paths as [|p paths IH]; intros w Hall; simpl.
  - exists w. rewrite app_nil_r. auto.
  - unfold image_paths. rewrite filter_cons. fold (image_paths paths).
    destruct (is_image_name (os_path_basename p)) eqn:Himg; simpl.
    + destruct (Hall p) as (content & Hf & Hin); [left | assumption |].
      assert (H1 : index_one p (JObj d) w
                   = (Ok (JObj d), emit (E_print_skipping (os_path_basename p)) w)).
      { apply (index_one_seen _ _ _ _ Himg Hf). simpl. now rewrite Hin. }
      destruct (IH (emit (E_print_skipping (os_path_basename p)) w))
        as (w' & Hrun & He & Hr & Hfs & Hc).
      { intros q Hq Hi. apply Hall; [now right | assumption]. }
      exists w'. rewrite (bind_eq _ _ _ _ _ H1). simpl in *.
      rewrite He, <- app_assoc. auto.
    + rewrite (bind_eq _ _ _ _ _ (index_one_not_image _ _ _ Himg)).
      apply IH. intros q Hq Hi. apply Hall; [now right | assumption].
Qed.

(** A loop that returned and in which no index call raised leaves the
    fingerprint of every image of the list in the dict. *)
Lemma index_loop_records (paths : list string) d d' w w' (evs : list Event) :
  foldM index_one paths (JObj d) w = (Ok (JObj d'), w') ->
  events w' = events w ++ evs ->
  Forall (fun ev => index_failed ev = false) evs ->
  forall p, p ∈ paths -> is_image_name (os_path_basename p) = true ->
    exists content, files w !! p = Some content /\
                    dict_has d' (MD5.hexdigest content) = true.
Proof.
  revert d w evs. induction paths as [|p0 paths IH]; intros d w evs; simpl.
  - intros _ _ _ p Hp. now apply not_elem_of_nil in Hp.
  - intros (c1 & w1 & H1 & H)%bind_ok He Hok p Hp Himg.
    pose proof (index_one_frame _ _ _ _ _ H1) as (Hf1 & _ & evs1 & He1 & _).
    pose proof (index_loop_frame _ _ _ _ _ H) as (_ & _ & evs2 & He2 & _).
    assert (evs = evs1 ++ evs2) as ->.
    { rewrite He2, He1, <- app_assoc in He. now apply app_inv_head in He. }
    apply Forall_app in Hok as [Hok1 Hok2].
    destruct (index_one_dict _ _ _ _ _ H1) as (d1 & -> & Hmono1).
    destruct (index_loop_dict _ _ _ _ _ H) as (d2 & [= <-] & Hmono2).
    apply elem_of_cons in Hp as [->|Hp].
    + unfold index_one in H1. rewrite Himg in H1. simpl in H1.
      unfold file_hash, bind, read_file, lift, ret in H1.
      destruct (files w !! p0) as [content|] eqn:Ef; [|discriminate].
      exists content. split; [reflexivity|]. apply Hmono2.
      simpl in H1. destruct (dict_has d (MD5.hexdigest content)) eqn:Hin.
      * unfold print in H1. injection H1 as <- _. exact Hin.
      * unfold try_except, bind, call, print, ret in H1.
        destruct (index_faces _ _) as [[[]|e] a'] eqn:Hix; simpl in H1.
        -- injection H1 as <- _. apply dict_has_set.
        -- injection H1 as _ <-. simpl in He1. rewrite <- app_assoc in He1.
           apply app_inv_head in He1. subst evs1.
           apply Forall_cons in Hok1 as [Hbad _]. discriminate.
    + destruct (IH d1 w1 evs2 H He2 Hok2 p Hp Himg) as (content & Hf & Hin).
      exists content. rewrite <- Hf1. auto.
Qed.

(** X4. After a run of [index_faces_if_new] on a dict cache that returned
    with no index call raising, a second run on the same paths makes no call
    at all: it prints one skipping line per image path and leaves the remote
    side and the cache file as they are. *)
Theorem second_run_skips_everything (paths : list string) d w w1 (evs : list Event) :
  load_cache w = (Ok (JObj d), w) ->
  index_faces_if_new paths w = (Ok tt, w1) ->
  events w1 = events w ++ evs ->
  Forall (fun ev => index_failed ev = false) evs ->
  exists w2,
    index_faces_if_new paths w1 = (Ok tt, w2) /\
    events w2 = events w1
                ++ map (fun p => E_print_skipping (os_path_basename p)) (image_paths paths) /\
    remote w2 = remote w1 /\ cache_file w2 = cache_file w1.
Proof.
  intros Hload Hrun He Hok. unfold index_faces_if_new in Hrun.
  rewrite (bind_eq _ _ _ _ _ Hload) in Hrun.
  apply bind_ok in Hrun as (c' & w0 & Hloop & [= <-]).
  destruct (index_loop_dict _ _ _ _ _ Hloop) as (d' & -> & _).
  simpl in He.
  pose proof (index_loop_records _ _ _ _ _ _ Hloop He Hok) as Hrec.
  pose proof (index_loop_frame _ _ _ _ _ Hloop) as (Hf0 & _).
  destruct (index_loop_all_seen paths d'
              (set_cache_file (Some (json_dumps (JObj d'))) w0))
    as (w2 & Hrun2 & He2 & Hr2 & Hf2 & Hc2).
  { intros p Hp Himg. simpl. rewrite Hf0. now apply Hrec. }
  exists (set_cache_file (Some (json_dumps (JObj d'))) w2).
  unfold index_faces_if_new.
  assert (Hl : load_cache (set_cache_file (Some (json_dumps (JObj d'))) w0)
               = (Ok (JObj d'), set_cache_file (Some (json_dumps (JObj d'))) w0))
    by reflexivity.
  rewrite (bind_eq _ _ _ _ _ Hl), (bind_eq _ _ _ _ _ Hrun2).
  simpl in *. auto.
Qed.

(** X5. A fingerprint that [file_hash] returns is the MD5 digest of the
    content of the file, written as 32 lower-case hexadecimal digits, and
    computing it changes nothing. *)
Theorem file_hash_is_hex_digest (path : string) w w' (h : string) :
  file_hash path w = (Ok h, w') ->
  w' = w /\
  (exists content, files w !! path = Some content /\ h = MD5.hexdigest content) /\
  String.length h = 32 /\
  forallb is_hex_lower (list_ascii_of_string h) = true.
Proof.
  unfold file_hash, bind, read_file, ret.
  destruct (files w !! path) as [content|]; [|discriminate].
  intros [= <- <-]. split; [reflexivity|]. split; [eauto|].
  destruct (digest_shape content) as [Hlen Hrange].
  destruct (hex_shape _ Hrange) as [H1 H2].
  unfold MD5.hexdigest. rewrite H1, Hlen. auto.
Qed.

(** ** Saving and uploading the gallery *)

(** One turn: the file is written under its path, then the bucket is asked
    to take that content under the name of the file. *)
Lemma save_gallery_file_step (file : UploadedFile) w :
  save_gallery_file cfg file w
  = (match fst (upload_file (concat (chunks file)) (name file) (remote w)) with
     | Ok _ => Ok (saved_path cfg file)
     | Raise e => Raise e
     end,
     emit (E_upload_file (saved_path cfg file) (name file)
             (fst (upload_file (concat (chunks file)) (name file) (remote w))))
       (set_remote (snd (upload_file (concat (chunks file)) (name file) (remote w)))
          (set_files (insert (saved_path cfg file) (concat (chunks file))) w))).
Proof.
  unfold save_gallery_file, upload_to_s3, write_file, bind, read_file, call, ret,
    saved_path.
  simpl. rewrite lookup_insert_eq.
  now destruct (upload_file _ _ _) as [[[]|e] a'].
Qed.

Lemma written_cons (file : UploadedFile) (saved : list UploadedFile)
    (fs : gmap string bytes) (p : string) :
  written cfg saved (<[saved_path cfg file := concat (chunks file)]> fs) p
  = written cfg (file :: saved) fs p.
Proof.
  unfold written. rewrite filter_cons.
  destruct (decide (bool_decide (saved_path cfg file = p))) as [H|H].
  - apply bool_decide_unpack in H. rewrite last_cons.
    destruct (last _); [reflexivity|]. subst p. now rewrite lookup_insert_eq.
  - destruct (last _); [reflexivity|]. rewrite lookup_insert_ne; [reflexivity|].
    intros E. apply H. now apply bool_decide_pack.
Qed.

(** The loop over the gallery, however it ends. *)
Lemma save_gallery_run (gallery : list UploadedFile) w w' (r : result (list string)) :
  mapM (save_gallery_file cfg) gallery w = (r, w') ->
  cache_file w' = cache_file w /\
  ((r = Ok (map (saved_path cfg) gallery) /\
    events w' = events w ++ map (upload_event cfg) gallery /\
    remote w' = foldl (fun a file => snd (upload_file (concat (chunks file)) (name file) a))
                      (remote w) gallery /\
    forall p, files w' !! p = written cfg gallery (files w) p)
   \/
   (exists e done file rest,
      r = Raise e /\ gallery = done ++ file :: rest /\
      events w' = events w ++ map (upload_event cfg) done
                  ++ [E_upload_file (saved_path cfg file) (name file) (Raise e)] /\
      forall p, files w' !! p = written cfg (done ++ [file]) (files w) p)).
Proof.
  revert w r. induction gallery as [|f gallery IH]; intros w r; simpl.
  - intros [= <- <-]. split; [reflexivity|]. left. rewrite app_nil_r. auto.
  - unfold bind at 1. rewrite save_gallery_file_step.
    destruct (upload_file (concat (chunks f)) (name f) (remote w)) as [[[]|e] a'] eqn:Hu;
      simpl.
    + unfold bind. destruct (mapM _ gallery _) as [[ps|e] w2] eqn:H2;
        intros [= <- <-];
        apply IH in H2 as (Hc & [(Hr & He & Hrem & Hf) | (e' & done & file & rest & Hr & -> & He & Hf)]);
        simpl in *; (split; [exact Hc|]); try discriminate.
      * left. injection Hr as ->. rewrite He, <- app_assoc, Hrem. repeat split; auto.
        intros p. rewrite Hf. apply written_cons.
      * right. injection Hr as ->. exists e', (f :: done), file, rest.
        rewrite He, <- !app_assoc. repeat split; auto.
        intros p. rewrite Hf. apply written_cons.
    + intros [= <- <-]. simpl. split; [reflexivity|]. right.
      exists e, [], f, gallery. repeat split; auto.
      intros p. change (<[saved_path cfg f:=concat (chunks f)]> (files w) !! p)
        with (written cfg [] (<[saved_path cfg f:=concat (chunks f)]> (files w)) p).
      apply written_cons.
Qed.

(** X6. When every upload returns, the loop over the gallery returns the
    saved paths in order, with one upload per file, in order, under the name
    of the file; the bucket was given, file after file, the concatenation of
    the chunks received; and on disk each path holds the content of the last
    gallery file saved under it, every other local file being untouched. *)
Theorem gallery_saved_and_uploaded (gallery : list UploadedFile) w w'
    (paths : list string) :
  mapM (save_gallery_file cfg) gallery w = (Ok paths, w') ->
  paths = map (saved_path cfg) gallery /\
  events w' = events w ++ map (upload_event cfg) gallery /\
  remote w' = foldl (fun a file => snd (upload_file (concat (chunks file)) (name file) a))
                    (remote w) gallery /\
  (forall p, files w' !! p = written cfg gallery (files w) p) /\
  cache_file w' = cache_file w.
Proof.
  intros H. apply save_gallery_run in H as (Hc & [(Hr & He & Hrem & Hf) | Hbad]).
  - injection Hr as ->. auto.
  - destruct Hbad as (e & done & file & rest & Hr & _). discriminate.
Qed.

(** X7. When an upload raises, the loop stops there with that error: the
    files before it were saved and uploaded, the file whose upload raised is
    on disk, and the files after it were neither written nor uploaded. *)
Theorem upload_error_stops_batch (gallery : list UploadedFile) w w' (e : exn) :
  mapM (save_gallery_file cfg) gallery w = (Raise e, w') ->
  exists done file rest,
    gallery = done ++ file :: rest /\
    events w' = events w ++ map (upload_event cfg) done
                ++ [E_upload_file (saved_path cfg file) (name file) (Raise e)] /\
    (forall p, files w' !! p = written cfg (done ++ [file]) (files w) p) /\
    cache_file w' = cache_file w.
Proof.
  intros H. apply save_gallery_run in H as (Hc & [(Hr & _) | Hbad]).
  - discriminate.
  - destruct Hbad as (e' & done & file & rest & Hr & Hg & He & Hf).
    injection Hr as <-. exists done, file, rest. auto.
Qed.

Lemma written_snoc (saved : list UploadedFile) (file : UploadedFile)
    (fs : gmap string bytes) (p : string) :
  written cfg (saved ++ [file]) fs p
  = if bool_decide (saved_path cfg file = p) then Some (concat (chunks file))
    else written cfg saved fs p.
Proof.
  unfold written at 1. rewrite filter_app, last_app, filter_cons. simpl.
  destruct (bool_decide (saved_path cfg file = p)) eqn:E.
  - destruct (decide _) as [_|H]; [reflexivity|]. now exfalso; apply H.
  - destruct (decide _) as [H|_]; [contradiction | reflexivity].
Qed.

Lemma written_is_Some (saved : list UploadedFile) (fs : gmap string bytes)
    (g : UploadedFile) :
  g ∈ saved -> is_Some (written cfg saved fs (saved_path cfg g)).
Proof.
  intros Hg. unfold written.
  destruct (last _) as [g'|] eqn:E; [eauto|].
  apply last_None in E.
  assert (Hin : g ∈ filter (fun g0 => bool_decide (saved_path cfg g0 = saved_path cfg g))
                      saved).
  { apply list_elem_of_filter. split; [now apply bool_decide_pack | assumption]. }
  rewrite E in Hin. now apply not_elem_of_nil in Hin.
Qed.

(** ** The ways a request to the upload view ends *)

Lemma external_ids_raise (l : list FaceMatch) w w' (e : exn) :
  mapM external_image_id l w = (Raise e, w') ->
  e = KeyError "ExternalImageId" /\
  exists m, m ∈ l /\ Face_ExternalImageId m = None.
Proof.
  induction l as [|m l IH]; simpl; [discriminate|].
  intros [(x & w1 & H1 & H) | (e1 & H1 & [= <-])]%bind_inv.
  - apply bind_inv in H as [(xs & w2 & H2 & [=]) | (e2 & H2 & [= <-])].
    assert (w1 = w) as ->.
    { unfold external_image_id in H1. destruct (Face_ExternalImageId m);
        now injection H1. }
    destruct (IH H2) as (-> & m' & Hm' & Hnone). split; [reflexivity|].
    exists m'. split; [now right | assumption].
  - unfold external_image_id in H1.
    destruct (Face_ExternalImageId m) eqn:E; [discriminate|].
    injection H1 as <- _. split; [reflexivity|]. exists m. split; [left | assumption].
Qed.

(** Every run of a POST ends in one of these ways, with the events listed
    there. *)
Lemma upload_images_cases (request : HttpRequest) w w' (r : result HttpResponse) :
  method request = "POST" ->
  upload_images cfg request w = (r, w') ->
  exists evs, events w' = events w ++ evs /\ upload_outcome cfg request r evs.
Proof.
  intros Hm H. unfold upload_images in H.
  rewrite (bool_decide_eq_true_2 _ Hm) in H. simpl in H.
  apply bind_inv in H as [([] & w1 & Hens & H) | (e & Hens & ->)].
  2:{ apply ensure_collection_exists_inv in Hens as (r0 & _ & He & _ & _ & Hr).
      exists [E_create_collection r0]. split; [exact He|].
      destruct r0 as [|e0]; [discriminate|].
      assert (e0 <> ResourceAlreadyExistsException /\ e = e0) as [Hne ->].
      { destruct e0; try discriminate; split; congruence. }
      now apply Create_failed. }
  apply ensure_collection_exists_inv in Hens as (r0 & _ & He1 & Hf1 & _ & Hr).
  assert (Hcreated : created r0).
  { destruct r0 as [[]|e0]; [now left|]. destruct e0; try discriminate. now right. }
  destruct (missing_files _ _) eqn:Hmiss.
  { injection H as <- <-. exists [E_create_collection r0]. split; [exact He1|].
    now apply Files_missing. }
  destruct (get "reference_image" (FILES request)) as [reference|] eqn:Href.
  2:{ unfold missing_files in Hmiss. simpl in Hmiss.
      rewrite orb_true_r in Hmiss. discriminate. }
  apply bind_inv in H as [(paths & w2 & Hsave & H) | (e & Hsave & ->)].
  2:{ apply save_gallery_run in Hsave as (_ & [(? & _) | Hbad]); [discriminate|].
      destruct Hbad as (e' & done & file & rest & [= <-] & Hg & He2 & _).
      eexists. split; [rewrite He2, He1, <- app_assoc; reflexivity|].
      eapply Upload_failed; eauto. }
  apply save_gallery_run in Hsave as (_ & [(Hpaths & He2 & _ & Hf2) | Hbad]).
  2:{ destruct Hbad as (? & ? & ? & ? & ? & _). discriminate. }
  injection Hpaths as ->.
  assert (Hnames : map os_path_basename
                     (map (saved_path cfg) (getlist "gallery_images" (FILES request)))
                   = batch_filenames cfg request).
  { unfold batch_filenames, saved_path. now rewrite map_map. }
  unfold bind at 1, write_file in H.
  set (w3 := set_files (insert (os_path_join (UPLOAD_FOLDER cfg) (name reference))
                               (concat (chunks reference))) w2) in H.
  apply bind_inv in H as [([] & w4 & Hix & H) | (e & Hix & ->)].
  2:{ pose proof (index_faces_if_new_calls _ _ _ _ Hix) as (ixs & He4 & Hixs & _).
      rewrite Hnames in Hixs.
      eexists. split.
      { rewrite He4. unfold w3. simpl. rewrite He2, He1, <- !app_assoc. reflexivity. }
      now apply Indexing_failed. }
  pose proof (index_faces_if_new_calls _ _ _ _ Hix) as (ixs & He4 & Hixs & _).
  rewrite Hnames in Hixs.
  apply index_faces_if_new_frame in Hix as (Hf4 & _).
  unfold bind at 1, read_file in H. rewrite Hf4 in H. unfold w3 in H at 1.
  simpl in H. rewrite lookup_insert_eq in H.
  unfold bind at 1, call in H.
  destruct (search_faces_by_image _ _ _ (remote w4)) as [[resp|e] a5] eqn:Hs.
  2:{ injection H as <- <-. eexists. split.
      { simpl. rewrite He4. unfold w3. simpl. rewrite He2, He1, <- !app_assoc.
        reflexivity. }
      now apply Search_failed. }
  apply bind_inv in H as [(ids & w6 & Hids & H) | (e & Hids & ->)].
  2:{ pose proof (external_ids_world _ _ _ _ Hids) as ->.
      apply external_ids_raise in Hids as (-> & Hm').
      eexists. split.
      { simpl. rewrite He4. unfold w3. simpl. rewrite He2, He1, <- !app_assoc.
        reflexivity. }
      now apply Match_without_id. }
  apply external_ids_ok in Hids as [-> Hids].
  match type of H with bind (mapM _ ?ks) _ ?w0 = _ =>
    destruct (image_urls_spec cfg ks w0) as (rs & w7 & Hurls & Hlen & He7 & _) end.
  rewrite (bind_eq _ _ _ _ _ Hurls) in H.
  destruct (remove_uploads_spec cfg w7) as (w8 & Hrm & He8 & _).
  rewrite (bind_eq _ _ _ _ _ Hrm) in H. injection H as <- <-.
  rewrite Hnames in *.
  eexists. split.
  { rewrite He8, He7. simpl. rewrite He4. unfold w3. simpl.
    rewrite He2, He1, <- !app_assoc. reflexivity. }
  eapply Matches_found; eauto.
Qed.

Ltac omap_simpl :=
  rewrite ?omap_app; simpl;
  repeat match goal with
         | |- context [list_omap ?X ?Y ?f ?l] =>
             change (list_omap X Y f l) with (omap f l)
         end.

Lemma omap_uploads (l : list UploadedFile) :
  omap uploaded (map (upload_event cfg) l)
  = map (fun g => (saved_path cfg g, name g)) l /\
  omap searched (map (upload_event cfg) l) = [] /\
  omap indexed_name (map (upload_event cfg) l) = [] /\
  Forall upload_file_event (map (upload_event cfg) l).
Proof.
  induction l as [|g l (IH1 & IH2 & IH3 & IH4)]; [repeat split; constructor|].
  omap_simpl. rewrite IH1. repeat split; auto.
  all: constructor; [exact I | exact IH4].
Qed.

Lemma omap_index_events (ixs : list Event) :
  Forall index_event ixs ->
  omap uploaded ixs = [] /\ omap searched ixs = [].
Proof.
  induction 1 as [|ev ixs Hev _ [IH1 IH2]]; [auto|].
  destruct ev; simpl in Hev; try contradiction; omap_simpl; auto.
Qed.

Lemma omap_presigns (keys : list string) (rs : list (result string)) :
  omap uploaded (zip_with E_generate_presigned_url keys rs) = [] /\
  omap searched (zip_with E_generate_presigned_url keys rs) = [] /\
  omap indexed_name (zip_with E_generate_presigned_url keys rs) = [] /\
  Forall presign_event (zip_with E_generate_presigned_url keys rs).
Proof.
  revert rs. induction keys as [|k keys IH]; intros [|r rs];
    try (repeat split; constructor).
  destruct (IH rs) as (H1 & H2 & H3 & H4). omap_simpl. repeat split; auto.
  all: constructor; [exact I | exact H4].
Qed.

Lemma indexed_names_within (names : list string) (ixs : list Event) (n : string) :
  index_calls_within names ixs ->
  n ∈ omap indexed_name ixs -> is_image_name n = true /\ n ∈ names.
Proof.
  intros [_ H] (ev & Hev & Hn)%list_elem_of_omap.
  destruct ev; try discriminate. injection Hn as ->. eauto.
Qed.

(** What the events of an outcome are about. *)
Lemma outcome_calls (request : HttpRequest) (r : result HttpResponse)
    (evs : list Event) :
  upload_outcome cfg request r evs ->
  (exists done, done `prefix_of` getlist "gallery_images" (FILES request) /\
                omap uploaded evs = map (fun g => (saved_path cfg g, name g)) done) /\
  (forall n, n ∈ omap indexed_name evs ->
     is_image_name n = true /\ n ∈ batch_filenames cfg request) /\
  (omap searched evs = [] \/
   exists reference, get "reference_image" (FILES request) = Some reference /\
                     omap searched evs = [concat (chunks reference)]).
Proof.
  assert (Hnil : forall n : string, n ∈ @nil string ->
            is_image_name n = true /\ n ∈ batch_filenames cfg request).
  { intros n Hn. now apply not_elem_of_nil in Hn. }
  assert (Hall : forall l : list UploadedFile, l `prefix_of` l) by reflexivity.
  destruct 1 as [e Hne | r0 Hc Hmiss | r0 e done file rest Hc Hg
                | r0 e ixs Hc Hix | r0 e ixs reference Hc Href Hix
                | r0 ixs reference resp Hc Href Hix Hm
                | r0 ixs reference resp ids keys rs Hc Href Hix Hids Hkeys Hlen];
    rewrite ?omap_app;
    try (destruct (omap_index_events ixs (proj1 Hix)) as [Hi1 Hi2]; rewrite Hi1, Hi2);
    try (destruct (omap_presigns keys rs) as (Hp1 & Hp2 & Hp3 & _);
         rewrite Hp1, Hp2, Hp3);
    repeat match goal with
      | |- context [omap _ (map (upload_event cfg) ?l)] =>
          destruct (omap_uploads l) as (Hu1 & Hu2 & Hu3 & _); rewrite Hu1, Hu2, Hu3;
          clear Hu1 Hu2 Hu3
      end;
    omap_simpl; rewrite ?app_nil_r.
  - split; [exists []; split; [apply prefix_nil | reflexivity]|]. auto.
  - split; [exists []; split; [apply prefix_nil | reflexivity]|]. auto.
  - split; [|auto]. exists (done ++ [file]). split.
    + rewrite Hg. exists rest. now rewrite <- app_assoc.
    + now rewrite map_app.
  - split; [eauto|]. split; [|auto]. intros n. apply indexed_names_within, Hix.
  - split; [eauto|]. split; [|eauto]. intros n. apply indexed_names_within, Hix.
  - split; [eauto|]. split; [|eauto]. intros n. apply indexed_names_within, Hix.
  - split; [eauto|]. split; [|eauto]. intros n. apply indexed_names_within, Hix.
Qed.

(** The events of an outcome, by kind: one creation, then uploads, then the
    indexing, then at most one search, then the presign calls. *)
Lemma outcome_order (request : HttpRequest) (r : result HttpResponse)
    (evs : list Event) :
  upload_outcome cfg request r evs ->
  exists r0 ups ixs srch urls,
    evs = E_create_collection r0 :: ups ++ ixs ++ srch ++ urls /\
    Forall upload_file_event ups /\
    length ups <= length (getlist "gallery_images" (FILES request)) /\
    Forall index_event ixs /\
    Forall search_event srch /\ length srch <= 1 /\
    Forall presign_event urls.
Proof.
  destruct 1 as [e Hne | r0 Hc Hmiss | r0 e done file rest Hc Hg
                | r0 e ixs Hc Hix | r0 e ixs reference Hc Href Hix
                | r0 ixs reference resp Hc Href Hix Hm
                | r0 ixs reference resp ids keys rs Hc Href Hix Hids Hkeys Hlen].
  all: try pose proof (proj1 Hix) as Hix'.
  - exists (Raise e), [], [], [], []. repeat split; auto; simpl; lia.
  - exists r0, [], [], [], []. repeat split; auto; simpl; lia.
  - exists r0, (map (upload_event cfg) done
                ++ [E_upload_file (saved_path cfg file) (name file) (Raise e)]),
      [], [], [].
    simpl. rewrite !app_nil_r. repeat split; auto.
    all: first [ apply Forall_app; split; [apply omap_uploads | repeat constructor]
               | rewrite Hg, !length_app, length_map; simpl; lia
               | simpl; lia ].
  - exists r0, (map (upload_event cfg) (getlist "gallery_images" (FILES request))),
      ixs, [], [].
    simpl. rewrite !app_nil_r. repeat split; auto.
    all: first [ apply omap_uploads | rewrite length_map; lia | simpl; lia ].
  - exists r0, (map (upload_event cfg) (getlist "gallery_images" (FILES request))),
      ixs, [E_search_faces_by_image (concat (chunks reference)) (Raise e)], [].
    simpl. repeat split; auto.
    all: first [ apply omap_uploads | rewrite length_map; lia
               | repeat constructor; fail | simpl; lia ].
  - exists r0, (map (upload_event cfg) (getlist "gallery_images" (FILES request))),
      ixs, [E_search_faces_by_image (concat (chunks reference)) (Ok resp)], [].
    simpl. repeat split; auto.
    all: first [ apply omap_uploads | rewrite length_map; lia
               | repeat constructor; fail | simpl; lia ].
  - exists r0, (map (upload_event cfg) (getlist "gallery_images" (FILES request))),
      ixs, [E_search_faces_by_image (concat (chunks reference)) (Ok resp)],
      (zip_with E_generate_presigned_url keys rs).
    simpl. repeat split; auto.
    all: first [ apply omap_uploads | rewrite length_map; lia | apply omap_presigns
               | repeat constructor; fail | simpl; lia ].
Qed.

(** X10. Whatever the request and the outcome, the calls of the upload view
    come in one order - at most one creation of the collection, then at most
    one upload per gallery file, then the index calls and printed lines, then
    at most one search, then the presign calls - and the view never asks the
    bucket for an object. *)
Theorem upload_calls_in_order (request : HttpRequest) w :
  exists l0 ups ixs srch urls,
    events (snd (upload_images cfg request w))
    = events w ++ l0 ++ ups ++ ixs ++ srch ++ urls /\
    Forall create_event l0 /\ length l0 <= 1 /\
    Forall upload_file_event ups /\
    length ups <= length (getlist "gallery_images" (FILES request)) /\
    Forall index_event ixs /\
    Forall search_event srch /\ length srch <= 1 /\
    Forall presign_event urls /\
    Forall (fun ev => get_event ev = false) (l0 ++ ups ++ ixs ++ srch ++ urls).
Proof.
  destruct (bool_decide (method request = "POST")) eqn:Hm.
  - apply bool_decide_eq_true in Hm.
    destruct (upload_images cfg request w) as [r w'] eqn:H. simpl.
    apply (upload_images_cases _ _ _ _ Hm) in H as (evs & He & Hout).
    apply outcome_order in Hout
      as (r0 & ups & ixs & srch & urls & -> & Hu & Hlu & Hi & Hs & Hls & Hp).
    assert (Hget : Forall (fun ev => get_event ev = false)
                     ([E_create_collection r0] ++ ups ++ ixs ++ srch ++ urls)).
    { repeat apply Forall_app_2; [repeat constructor|..];
        (eapply Forall_impl; [eassumption|]); intros []; simpl; intros Hx; auto;
        contradiction. }
    exists [E_create_collection r0], ups, ixs, srch, urls.
    split; [exact He|]. split; [repeat constructor|]. split; [simpl; lia|].
    auto 10.
  - unfold upload_images. rewrite Hm. simpl.
    exists [], [], [], [], []. rewrite app_nil_r. repeat split; auto; simpl; lia.
Qed.

(** X11. The calls of a POST are about the files of that request only: the
    uploads, in order, are for a prefix of the gallery, each file under its
    saved path and its own name; every index call is for the name, with an
    image extension, of a gallery file; and the search, when there is one, is
    made once with the content of the reference file. *)
Theorem upload_calls_about_request (request : HttpRequest) w :
  method request = "POST" ->
  exists evs,
    events (snd (upload_images cfg request w)) = events w ++ evs /\
    (exists done, done `prefix_of` getlist "gallery_images" (FILES request) /\
                  omap uploaded evs = map (fun g => (saved_path cfg g, name g)) done) /\
    (forall n, n ∈ omap indexed_name evs ->
       is_image_name n = true /\ n ∈ batch_filenames cfg request) /\
    (omap searched evs = [] \/
     exists reference, get "reference_image" (FILES request) = Some reference /\
                       omap searched evs = [concat (chunks reference)]).
Proof.
  intros Hm. destruct (upload_images cfg request w) as [r w'] eqn:H. simpl.
  apply (upload_images_cases _ _ _ _ Hm) in H as (evs & He & Hout).
  exists evs. split; [exact He|]. now apply outcome_calls in Hout.
Qed.

(** ** The sweep, seen from the other users of the disk *)

Lemma written_other (saved : list UploadedFile) (fs : gmap string bytes) (p : string) :
  (forall g, g ∈ saved -> saved_path cfg g <> p) -> written cfg saved fs p = fs !! p.
Proof.
  intros H. unfold written. destruct (last _) as [g|] eqn:E; [|reflexivity].
  apply last_Some in E as [l' E].
  assert (Hg : g ∈ filter (fun g0 => bool_decide (saved_path cfg g0 = p)) saved).
  { rewrite E. apply elem_of_app. right. left. }
  apply list_elem_of_filter in Hg as [Hp Hg]. apply bool_decide_unpack in Hp.
  now apply H in Hg.
Qed.

Lemma index_faces_if_new_saves (paths : list string) w w' :
  index_faces_if_new paths w = (Ok tt, w') ->
  exists v, cache_file w' = Some (Json_text v).
Proof.
  unfold index_faces_if_new.
  intros (c & w1 & _ & (c' & w2 & _ & H)%bind_ok)%bind_ok.
  unfold save_cache in H. injection H as <-. now exists c'.
Qed.

(** The local files of a request that ends in the matches response, just
    before the sweep. *)
Lemma upload_images_files (request : HttpRequest) w w' (urls keys : list string) :
  upload_images cfg request w = (Ok (matches_response urls keys), w') ->
  exists reference w6,
    get "reference_image" (FILES request) = Some reference /\
    name reference <> "" /\
    (forall p, files w6 !! p
               = written cfg (getlist "gallery_images" (FILES request) ++ [reference])
                   (files w) p) /\
    (exists v, cache_file w6 = Some (Json_text v)) /\
    remove_uploads cfg w6 = (Ok tt, w').
Proof.
  unfold upload_images.
  destruct (bool_decide (method request = "POST")) eqn:Hm; simpl; [|discriminate].
  intros ([] & w1 & Hens & H)%bind_ok.
  destruct (missing_files _ _) eqn:Hmiss; [discriminate|].
  destruct (get "reference_image" (FILES request)) as [reference|] eqn:Href;
    [|discriminate].
  assert (Hname : name reference <> "").
  { unfold missing_files in Hmiss. apply orb_false_elim in Hmiss as [_ Hmiss].
    simpl in Hmiss. apply negb_false_iff, negb_true_iff, bool_decide_eq_false in Hmiss.
    exact Hmiss. }
  apply bind_ok in H as (paths & w2 & Hsave & H).
  apply bind_ok in H as ([] & w3 & [= <-] & H).
  apply bind_ok in H as ([] & w4 & Hix & H).
  pose proof (index_faces_if_new_saves _ _ _ Hix) as Hsaved.
  apply bind_ok in H as (img & w5 & [-> _]%read_file_inv & H).
  apply bind_ok in H as (resp & w6 & [-> _]%call_inv & H).
  apply bind_ok in H as (ids & w7 & [-> _]%external_ids_ok & H).
  match type of H with bind (mapM _ ?ks) _ ?w0 = _ =>
    destruct (image_urls_spec cfg ks w0) as (rs & w8 & Hurls & _ & _ & Hf8 & Hc8) end.
  rewrite (bind_eq _ _ _ _ _ Hurls) in H.
  apply bind_ok in H as ([] & w9 & Hrm & [= _ _ <-]).
  exists reference, w8. split; [reflexivity|]. split; [exact Hname|].
  split; [|split; [rewrite Hc8; exact Hsaved | exact Hrm]].
  intros p. rewrite Hf8. simpl.
  apply index_faces_if_new_frame in Hix as (-> & _). simpl.
  apply ensure_collection_exists_inv in Hens as (_ & _ & _ & Hf1 & _).
  apply save_gallery_run in Hsave as (_ & [(_ & _ & _ & Hf2) | (? & ? & ? & ? & ? & _)]);
    [|discriminate].
  rewrite written_snoc. fold (saved_path cfg reference).
  destruct (decide (saved_path cfg reference = p)) as [Heq|Hne].
  - rewrite (bool_decide_eq_true_2 _ Heq). rewrite Heq. apply lookup_insert_eq.
  - rewrite (bool_decide_eq_false_2 _ Hne).
    rewrite lookup_insert_ne by exact Hne. now rewrite Hf2, Hf1.
Qed.

Lemma sweep_entries (request : HttpRequest) w w' (urls keys : list string)
    (reference : UploadedFile) :
  Forall (fun file => has_sep (name file) = false /\ name file <> "")
         (getlist "gallery_images" (FILES request)) ->
  get "reference_image" (FILES request) = Some reference ->
  has_sep (name reference) = false ->
  upload_images cfg request w = (Ok (matches_response urls keys), w') ->
  (forall p, files w' !! p
             = match entry_name (UPLOAD_FOLDER cfg) p with
               | Some _ => None
               | None => files w !! p
               end) /\
  exists v, cache_file w' = Some (Json_text v).
Proof.
  intros Hgallery Href Hsep H.
  apply upload_images_files in H
    as (reference' & w6 & Href' & Hname & Hf6 & Hsaved & Hrm).
  rewrite Href in Href'. injection Href' as <-.
  destruct (remove_uploads_spec cfg w6) as (w8 & Hrm' & _ & Hc8 & _ & Hf8).
  rewrite Hrm in Hrm'. injection Hrm' as <-.
  split; [|now rewrite Hc8].
  intros p.
  rewrite Hf8. destruct (entry_name (UPLOAD_FOLDER cfg) p) as [n|] eqn:E; [reflexivity|].
  rewrite Hf6. apply written_other.
  intros g Hg Hp.
  assert (Hg' : has_sep (name g) = false /\ name g <> "").
  { apply elem_of_app in Hg as [Hg|Hg%list_elem_of_singleton].
    - rewrite Forall_forall in Hgallery. now apply Hgallery.
    - subst g. auto. }
  destruct Hg' as [Hs Hn].
  assert (E' : entry_name (UPLOAD_FOLDER cfg) p = Some (name g)).
  { apply entry_name_Some. split; [|auto]. rewrite <- Hp. unfold saved_path.
    now apply join_UPLOAD_FOLDER. }
  congruence.
Qed.

(** X12. With the upload folder holding regular files only and the files
    of the request under non-empty base names, a request that ends in the
    matches response leaves three things on disk.  Below the upload folder
    nothing is left, neither its own files nor any other that was there.  The
    cache file exists and holds a JSON document, rewritten by the indexing,
    whatever it held before and also when there was none.  Every other local
    file is as it was. *)
Theorem sweep_is_exact (request : HttpRequest) w w' (urls keys : list string)
    (reference : UploadedFile) :
  flat_folder cfg (files w) = true ->
  Forall (fun file => has_sep (name file) = false /\ name file <> "")
         (getlist "gallery_images" (FILES request)) ->
  get "reference_image" (FILES request) = Some reference ->
  has_sep (name reference) = false ->
  upload_images cfg request w = (Ok (matches_response urls keys), w') ->
  (forall p, files w' !! p
             = match strip_prefix (UPLOAD_FOLDER cfg +:+ "/") p with
               | Some _ => None
               | None => files w !! p
               end) /\
  exists v, cache_file w' = Some (Json_text v).
Proof.
  intros Hflat Hgallery Href Hsep H.
  destruct (sweep_entries _ _ _ _ _ _ Hgallery Href Hsep H) as [Hfiles Hcache].
  split; [|exact Hcache]. intros p. rewrite Hfiles.
  unfold entry_name at 1.
  destruct (strip_prefix _ p) as [n|] eqn:E; [|reflexivity].
  destruct (bool_decide (n = "") || has_sep n) eqn:En; [|reflexivity].
  destruct (files w !! p) as [c|] eqn:Hp; [|reflexivity].
  unfold flat_folder in Hflat. rewrite forallb_forall in Hflat.
  assert (Hin : In p (map fst (map_to_list (files w)))).
  { apply in_map_iff. exists (p, c). split; [reflexivity|].
    apply list_elem_of_In, elem_of_map_to_list, Hp. }
  apply Hflat in Hin. rewrite E in Hin. unfold entry_name in Hin.
  rewrite E, En in Hin. discriminate.
Qed.

(** ** The archive view, request by request *)

Lemma download_zip_not_post (request : HttpRequest) w :
  method request <> "POST" ->
  download_zip request w = (Ok (error_response "Invalid request"), w).
Proof.
  intros H. unfold download_zip. now rewrite (bool_decide_eq_false_2 _ H).
Qed.

Lemma download_zip_no_object (request : HttpRequest) w :
  method request = "POST" -> body_keys request = None ->
  download_zip request w = (Ok (error_response "Invalid JSON"), w).
Proof.
  intros Hm Hb. unfold download_zip, body_keys in *.
  rewrite (bool_decide_eq_true_2 _ Hm). simpl.
  destruct (body request) as [[]| |]; try discriminate; reflexivity.
Qed.

Lemma download_zip_keys (request : HttpRequest) (keys : JSON) w :
  method request = "POST" -> body_keys request = Some keys ->
  download_zip request w
  = if negb (py_truthy keys) then (Ok (error_response "No keys provided"), w)
    else match py_iter keys with
         | Ok items => bind (foldM add_entry items []) (fun zf => ret (zip_response zf)) w
         | Raise e => (Raise e, w)
         end.
Proof.
  intros Hm Hb. unfold download_zip, body_keys in *.
  rewrite (bool_decide_eq_true_2 _ Hm). simpl.
  destruct (body request) as [[]| |]; try discriminate. injection Hb as <-.
  unfold try_except, bind at 1 2 3, lift, ret. simpl.
  destruct (negb _); [reflexivity|].
  unfold bind at 1. now destruct (py_iter _).
Qed.

(** X13. The archive view answers with a 400 exactly when the request is
    not a POST, or its body is not a JSON object, or the value under [keys] is
    missing or falsy (an empty list, an empty string, null, zero, false, an
    empty object); and then it has called nothing and changed nothing. *)
Theorem download_zip_rejections (request : HttpRequest) w :
  ((exists msg, fst (download_zip request w) = Ok (error_response msg)) <->
   (method request <> "POST" \/ body_keys request = None \/
    exists keys, body_keys request = Some keys /\ py_truthy keys = false)) /\
  ((exists msg, fst (download_zip request w) = Ok (error_response msg)) ->
   snd (download_zip request w) = w).
Proof.
  destruct (decide (method request = "POST")) as [Hm|Hm].
  2:{ rewrite (download_zip_not_post _ _ Hm). simpl. split; [|reflexivity].
      split; eauto. }
  destruct (body_keys request) as [keys|] eqn:Hb.
  2:{ rewrite (download_zip_no_object _ _ Hm Hb). simpl. split; [|reflexivity].
      split; eauto. }
  rewrite (download_zip_keys _ _ _ Hm Hb).
  destruct (py_truthy keys) eqn:Ht; simpl.
  2:{ split; [|reflexivity]. split; eauto 6. }
  assert (Hno : ~ exists msg,
            fst (match py_iter keys with
                 | Ok items =>
                     bind (foldM add_entry items []) (fun zf => ret (zip_response zf)) w
                 | Raise e => (Raise e, w)
                 end) = Ok (error_response msg)).
  { intros [msg H]. destruct (py_iter keys) as [items|e]; [|discriminate].
    destruct (archive_loop_frame items w) as (zf & w' & evs & Hrun & _).
    rewrite (bind_eq _ _ _ _ _ Hrun) in H. discriminate. }
  split; [|intros H; now apply Hno in H].
  split; [intros H; now apply Hno in H|].
  intros [?|[?|(keys' & [= <-] & ?)]]; congruence.
Qed.

(** X14. A POST whose [keys] is true or a number other than zero makes the
    archive view raise a type error, before any call: the value passes the
    emptiness test and cannot be iterated. *)
Theorem download_zip_not_iterable (request : HttpRequest) (keys : JSON) w :
  method request = "POST" ->
  body_keys request = Some keys ->
  keys = JBool true \/ (exists z, keys = JInt z /\ z <> 0%Z)
  \/ (exists f, keys = JFloat f /\ float_is_zero f = false) ->
  download_zip request w = (Raise TypeError, w).
Proof.
  intros Hm Hb Hk. rewrite (download_zip_keys _ _ _ Hm Hb).
  destruct Hk as [->|[(z & -> & Hz)|(f & -> & Hf)]]; simpl.
  - reflexivity.
  - apply Z.eqb_neq in Hz. now rewrite Hz.
  - now rewrite Hf.
Qed.


Lemma requested_get_events (evs : list Event) (ks : list string) :
  map requested evs = map Some ks -> Forall get_event evs /\ length evs = length ks.
Proof.
  revert ks. induction evs as [|ev evs IH]; intros [|k ks]; simpl; try discriminate.
  - auto.
  - intros [= Hev H]. destruct (IH _ H) as [IH1 IH2]. split; [|now rewrite IH2].
    constructor; [|exact IH1]. now destruct ev.
Qed.

(** X16. Whatever the request, the archive view leaves the local files and
    the cache file as they are, and its only calls ask the bucket for an
    object; a request answered with the archive made at most one call per
    item of [keys]. *)
Theorem download_zip_only_reads_bucket (request : HttpRequest) w :
  files (snd (download_zip request w)) = files w /\
  cache_file (snd (download_zip request w)) = cache_file w /\
  exists evs,
    events (snd (download_zip request w)) = events w ++ evs /\
    Forall get_event evs /\
    forall keys items,
      body_keys request = Some keys -> py_iter keys = Ok items ->
      length evs <= length items.
Proof.
  assert (Hsame : files w = files w /\ cache_file w = cache_file w /\
            exists evs : list Event,
              events w = events w ++ evs /\ Forall get_event evs /\
              forall keys items,
                body_keys request = Some keys -> py_iter keys = Ok items ->
                length evs <= length items).
  { repeat split. exists []. rewrite app_nil_r. repeat split; auto.
    intros. simpl. lia. }
  destruct (decide (method request = "POST")) as [Hm|Hm].
  2:{ now rewrite (download_zip_not_post _ _ Hm). }
  destruct (body_keys request) as [keys|] eqn:Hb.
  2:{ now rewrite (download_zip_no_object _ _ Hm Hb). }
  rewrite (download_zip_keys _ _ _ Hm Hb).
  destruct (negb (py_truthy keys)); [exact Hsame|].
  destruct (py_iter keys) as [items|e] eqn:Hi; [|exact Hsame].
  destruct (archive_loop_frame items w) as (zf & w' & evs & Hrun & He & Hreq & Hf & Hc).
  rewrite (bind_eq _ _ _ _ _ Hrun). simpl.
  apply requested_get_events in Hreq as [Hget Hlen].
  split; [exact Hf|]. split; [exact Hc|]. exists evs. split; [exact He|].
  split; [exact Hget|].
  intros keys' items' [= <-] Hi'. rewrite Hi in Hi'. injection Hi' as <-.
  rewrite Hlen.
  clear. induction items as [|x items IH]; simpl; [lia|].
  destruct (str_key x); simpl; omap_simpl; lia.
Qed.
End More.

(** ** The further properties on concrete requests *)

(** Two files of the same content and an empty cache: one entry is added,
    for the first. *)
Lemma saved_cache_extends_loaded_witness :
  let w := world_ab [] in
  let run := index_faces_if_new [pa; pb] w in
  load_cache w = (Ok (JObj []), w) /\
  run = (Ok tt, snd run) /\
  exists d' evs,
    cache_file (snd run) = Some (Json_text (JObj d')) /\
    events (snd run) = events w ++ evs /\
    (forall k v, dict_get [] k = Some v -> dict_get d' k = Some v) /\
    (forall k v, dict_get d' k = Some v ->
       dict_get [] k = Some v \/
       exists p content,
         p ∈ [pa; pb] /\ files w !! p = Some content /\
         is_image_name (os_path_basename p) = true /\
         k = MD5.hexdigest content /\ v = JStr (os_path_basename p) /\
         E_index_faces (os_path_basename p) (Ok tt) ∈ evs).
Proof.
  intros w run.
  assert (H0 : load_cache w = (Ok (JObj []), w)) by reflexivity.
  assert (H : run = (Ok tt, snd run)) by (vm_compute; reflexivity).
  split; [exact H0|]. split; [exact H|].
  exact (saved_cache_extends_loaded [pa; pb] [] w (snd run) H0 H).
Defined.

(** The first file is indexed remotely, the second is not on disk: the run
    raises and the cache file is still absent. *)
Lemma failed_indexing_keeps_cache_file_witness :
  let run := index_faces_if_new [pa; pmissing] world_a in
  fst run = Raise (FileNotFoundError pmissing) /\
  events (snd run) = [E_index_faces "a.jpg" (Ok tt); E_print_indexed "a.jpg"] /\
  cache_file (snd run) = cache_file world_a.
Proof.
  intros run.
  assert (H : fst run = Raise (FileNotFoundError pmissing)) by (vm_compute; reflexivity).
  split; [exact H|]. split; [vm_compute; reflexivity|].
  exact (failed_indexing_keeps_cache_file [pa; pmissing] world_a _ H).
Defined.

Lemma second_run_skips_everything_witness :
  let w := world_ab [] in
  let run := index_faces_if_new [pa; pb] w in
  let evs := [E_index_faces "a.jpg" (Ok tt); E_print_indexed "a.jpg";
              E_print_skipping "b.jpg"] in
  load_cache w = (Ok (JObj []), w) /\
  run = (Ok tt, snd run) /\
  events (snd run) = events w ++ evs /\
  Forall (fun ev => index_failed ev = false) evs /\
  exists w2,
    index_faces_if_new [pa; pb] (snd run) = (Ok tt, w2) /\
    events w2 = events (snd run)
                ++ map (fun p => E_print_skipping (os_path_basename p))
                       (image_paths [pa; pb]) /\
    remote w2 = remote (snd run) /\ cache_file w2 = cache_file (snd run).
Proof.
  intros w run evs.
  assert (H0 : load_cache w = (Ok (JObj []), w)) by reflexivity.
  assert (H : run = (Ok tt, snd run)) by (vm_compute; reflexivity).
  assert (He : events (snd run) = events w ++ evs) by (vm_compute; reflexivity).
  assert (Hf : Forall (fun ev => index_failed ev = false) evs)
    by (repeat constructor).
  split; [exact H0|]. split; [exact H|]. split; [exact He|]. split; [exact Hf|].
  exact (second_run_skips_everything [pa; pb] [] w (snd run) evs H0 H He Hf).
Defined.

Lemma file_hash_is_hex_digest_witness :
  let h := "64489c85dc2fe0787b85cd87214b3810" in
  file_hash pa world_a = (Ok h, world_a) /\
  world_a = world_a /\
  (exists content, files world_a !! pa = Some content /\ h = MD5.hexdigest content) /\
  String.length h = 32 /\
  forallb is_hex_lower (list_ascii_of_string h) = true.
Proof.
  intros h.
  assert (H : file_hash pa world_a = (Ok h, world_a)) by (vm_compute; reflexivity).
  split; [exact H|].
  exact (file_hash_is_hex_digest pa world_a world_a h H).
Defined.

(** Two gallery files under one name: both are uploaded, and the path holds
    the second. *)
Lemma gallery_saved_and_uploaded_witness :
  let gallery := [file_ "a.jpg" "Alice"; file_ "a.jpg" "Bob"] in
  let w := world0 [] in
  let run := mapM (save_gallery_file sim_cfg) gallery w in
  run = (Ok [pa; pa], snd run) /\
  [pa; pa] = map (saved_path sim_cfg) gallery /\
  events (snd run) = events w ++ map (upload_event sim_cfg) gallery /\
  remote (snd run)
  = foldl (fun a file => snd (upload_file (concat (chunks file)) (name file) a))
          (remote w) gallery /\
  (forall p, files (snd run) !! p = written sim_cfg gallery (files w) p) /\
  cache_file (snd run) = cache_file w.
Proof.
  intros gallery w run.
  assert (H : run = (Ok [pa; pa], snd run)) by (vm_compute; reflexivity).
  split; [exact H|].
  exact (gallery_saved_and_uploaded sim_cfg gallery w (snd run) [pa; pa] H).
Defined.

(** The upload of the second of three files raises. *)
Lemma upload_error_stops_batch_witness :
  let gallery := [file_ "a.jpg" "Alice"; file_ "b.jpg" "Bob"; file_ "c.jpg" "Carol"] in
  let w := world0 ["upload_file b.jpg"] in
  let run := mapM (save_gallery_file sim_cfg) gallery w in
  run = (Raise S3UploadFailedError, snd run) /\
  exists done file rest,
    gallery = done ++ file :: rest /\
    events (snd run)
    = events w ++ map (upload_event sim_cfg) done
      ++ [E_upload_file (saved_path sim_cfg file) (name file)
            (Raise S3UploadFailedError)] /\
    (forall p, files (snd run) !! p = written sim_cfg (done ++ [file]) (files w) p) /\
    cache_file (snd run) = cache_file w.
Proof.
  intros gallery w run.
  assert (H : run = (Raise S3UploadFailedError, snd run)) by (vm_compute; reflexivity).
  split; [exact H|].
  exact (upload_error_stops_batch sim_cfg gallery w (snd run) _ H).
Defined.

Lemma upload_calls_about_request_witness :
  let w := world0 [] in
  let run := upload_images sim_cfg req_dup w in
  method req_dup = "POST" /\
  exists evs,
    events (snd run) = events w ++ evs /\
    (exists done, done `prefix_of` getlist "gallery_images" (FILES req_dup) /\
                  omap uploaded evs = map (fun g => (saved_path sim_cfg g, name g)) done) /\
    (forall n, n ∈ omap indexed_name evs ->
       is_image_name n = true /\ n ∈ batch_filenames sim_cfg req_dup) /\
    (omap searched evs = [] \/
     exists reference, get "reference_image" (FILES req_dup) = Some reference /\
                       omap searched evs = [concat (chunks reference)]).
Proof.
  intros w run. split; [reflexivity|].
  exact (upload_calls_about_request sim_cfg req_dup w eq_refl).
Defined.

(** A file left in the upload folder by another request is removed with
    those of this one; the file next to the folder stays; and the cache file,
    absent before, is there. *)
Lemma sweep_is_exact_witness :
  let w := world_shared in
  let run := upload_images sim_cfg req_abc w in
  let reference := file_ "ref.jpg" "A?" in
  (flat_folder sim_cfg (files w) = true /\
   Forall (fun file => has_sep (name file) = false /\ name file <> "")
          (getlist "gallery_images" (FILES req_abc)) /\
   get "reference_image" (FILES req_abc) = Some reference /\
   has_sep (name reference) = false /\
   run = (Ok (matches_response ["https://signed.example/a.jpg"] ["a.jpg"]), snd run)) /\
  (forall p, files (snd run) !! p
             = match strip_prefix (UPLOAD_FOLDER sim_cfg +:+ "/") p with
               | Some _ => None
               | None => files w !! p
               end) /\
  exists v, cache_file (snd run) = Some (Json_text v).
Proof.
  intros w run reference.
  assert (H0 : flat_folder sim_cfg (files w) = true) by (vm_compute; reflexivity).
  assert (H1 : Forall (fun file => has_sep (name file) = false /\ name file <> "")
                      (getlist "gallery_images" (FILES req_abc)))
    by (repeat constructor; discriminate).
  assert (H2 : get "reference_image" (FILES req_abc) = Some reference)
    by (vm_compute; reflexivity).
  assert (H3 : has_sep (name reference) = false) by (vm_compute; reflexivity).
  assert (H : run = (Ok (matches_response ["https://signed.example/a.jpg"] ["a.jpg"]),
                     snd run))
    by (vm_compute; reflexivity).
  split; [auto 6|].
  exact (sweep_is_exact sim_cfg req_abc w (snd run) _ _ reference H0 H1 H2 H3 H).
Defined.

Example disk_after_shared_upload :
  let run := upload_images sim_cfg req_abc world_shared in
  files (snd run) !! "/srv/app/uploads/other.jpg" = None /\
  files (snd run) !! "/srv/app/uploads/a.jpg" = None /\
  files (snd run) !! "/srv/app/manage.py" = Some (b_ "import django") /\
  cache_file world_shared = None /\
  cache_file (snd run)
  = Some (Json_text (JObj [("64489c85dc2fe0787b85cd87214b3810", JStr "a.jpg");
                           ("150c16d9d096e70af3596111d7402397", JStr "c.PNG")])).
Proof. repeat split; vm_compute; reflexivity. Qed.

Lemma download_zip_not_iterable_witness :
  let request := zip_request_of (JInt 7) in
  method request = "POST" /\
  body_keys request = Some (JInt 7) /\
  download_zip request world_bucket = (Raise TypeError, world_bucket).
Proof.
  intros request. split; [reflexivity|]. split; [reflexivity|].
  apply (download_zip_not_iterable request (JInt 7) world_bucket eq_refl eq_refl).
  right. left. exists 7%Z. split; [reflexivity|discriminate].
Defined.

